(** * pypov: the polar resampling engine of [pypov.py]

    A shallow embedding of the class [ImageToLed] (the sampler that turns a
    polar query into an averaged colour) and the properties of its
    specification.

    Numbers.  Python [int]s are [Z].  Python [float]s are idealised as the
    real numbers [R] of the Standard Library: [math.pi], [math.cos] and
    [math.sin] are [PI], [cos] and [sin]; rounding, overflow and NaN are
    outside this model.  [int(x)] on a float is truncation toward zero.

    Exceptions.  A Python call either returns or raises; a method body is
    written in the [result] monad below. *)

From Stdlib Require Import ZArith List Bool Reals Lia Lra Permutation.
Import ListNotations.

(** ** Exceptions *)

Inductive exn : Type :=
| AttributeError
| IndexError
| TypeError
| ValueError
| ZeroDivisionError.

Inductive result (A : Type) : Type :=
| Ok (a : A)
| Raise (e : exn).

Arguments Ok {A} a.
Arguments Raise {A} e.

Definition bind {A B : Type} (c : result A) (k : A -> result B) : result B :=
  match c with
  | Ok a => k a
  | Raise e => Raise e
  end.

Notation "x <- c ;; k" := (bind c (fun x => k))
  (at level 61, c at next level, right associativity).

(** [for x in l: ys.append(f(x))], stopping at the first exception. *)
Fixpoint mapM {A B : Type} (f : A -> result B) (l : list A) : result (list B) :=
  match l with
  | [] => Ok []
  | x :: xs => y <- f x ;; ys <- mapM f xs ;; Ok (y :: ys)
  end.

(** [for x in l: s = f(s, x)], stopping at the first exception. *)
Fixpoint foldM {S A : Type} (f : S -> A -> result S) (l : list A) (s : S)
  : result S :=
  match l with
  | [] => Ok s
  | x :: xs => s' <- f s x ;; foldM f xs s'
  end.

(** [range(n)]: empty when [n <= 0]. *)
Definition range (n : Z) : list Z := map Z.of_nat (seq 0 (Z.to_nat n)).

(** ** Floats as reals *)

Definition Rltb (x y : R) : bool := if Rlt_dec x y then true else false.

(** [int(x)]: truncation toward zero. *)
Definition py_int (x : R) : Z :=
  if Rle_dec 0 x then Int_part x else (- Int_part (- x))%Z.

(** [n / d] with [d] an [int]. *)
Definition truediv (n : R) (d : Z) : result R :=
  if (d =? 0)%Z then Raise ZeroDivisionError else Ok (n / IZR d)%R.

(** ** pygame objects *)

(** A four-channel colour value is either the plain tuple built on line 90
    or the [pygame.Color] that [Surface.get_at] returns.  Both are indexed
    the same way; only the second accepts item assignment. *)
Inductive pixel : Type :=
| Tuple (r g b a : Z)
| Color (r g b a : Z).

Definition channels (p : pixel) : list Z :=
  match p with
  | Tuple r g b a => [r; g; b; a]
  | Color r g b a => [r; g; b; a]
  end.

(** [p[i]] for the literal indices 0..3 of the source. *)
Definition getitem (p : pixel) (i : nat) : Z := nth i (channels p) 0%Z.

(** [p[i] = v]: a tuple refuses it, a [pygame.Color] takes a value in
    0..255. *)
Definition setitem (p : pixel) (i : nat) (v : Z) : result pixel :=
  match p with
  | Tuple _ _ _ _ => Raise TypeError
  | Color r g b a =>
      if ((0 <=? v) && (v <=? 255))%Z then
        match i with
        | 0%nat => Ok (Color v g b a)
        | 1%nat => Ok (Color r v b a)
        | 2%nat => Ok (Color r g v a)
        | 3%nat => Ok (Color r g b v)
        | _ => Raise IndexError
        end
      else Raise ValueError
  end.

Record Rect : Type := {
  left : Z;
  top : Z;
  width : Z;
  height : Z
}.

(** [Rect.centerx] and [Rect.centery] are integers. *)
Definition centerx (b : Rect) : Z := (left b + width b / 2)%Z.
Definition centery (b : Rect) : Z := (top b + height b / 2)%Z.

Record Surface : Type := {
  get_width : Z;
  get_height : Z;
  pixel_at : Z -> Z -> Z * Z * Z * Z
}.

Definition get_rect (s : Surface) : Rect :=
  {| left := 0; top := 0; width := get_width s; height := get_height s |}.

(** [Surface.get_at((x, y))]: a fresh [Color], or [IndexError] outside the
    surface. *)
Definition get_at (s : Surface) (xy : Z * Z) : result pixel :=
  let '(x, y) := xy in
  if ((0 <=? x) && (x <? get_width s) && (0 <=? y) && (y <? get_height s))%Z
  then let '(r, g, b, a) := pixel_at s x y in Ok (Color r g b a)
  else Raise IndexError.

(** ** Module globals read by the sampler

    [img] and [backgroundFrameColor] are assigned at module level (lines 216
    and 219-223) and read by name inside [getLedColor]. *)
Record Globals : Type := {
  img : Surface;
  backgroundFrameColor : Z * Z * Z
}.

Definition WHITE : Z * Z * Z := (255, 255, 255)%Z.

(** [c[i]] on a three-tuple. *)
Definition tuple3_get (c : Z * Z * Z) (i : nat) : Z :=
  let '(r, g, b) := c in nth i [r; g; b] 0%Z.

(** ** [getAngleRads] (line 14) *)

Definition getAngleRads (angleDegs : R) : R := (angleDegs * PI / 180)%R.

(** ** class [ImageToLed] *)

(** The attributes of an instance.  [self_img] is [self.img], so named to
    keep it apart from the module global [img].  [imgBound] does not exist
    until [setImage] has run. *)
Record ImageToLed : Type := {
  angleAverageResolution : R;
  rAverageResolution : R;
  angleAveragePoints : Z;
  rAveragePoints : Z;
  numberOfAveragedPixels : Z;
  self_img : option Surface;
  imgBound : option Rect
}.

(** [ImageToLed.__init__] (lines 21-51). *)
Definition __init__ (angleAverageSpan : R) (angleAveragePoints0 : Z)
    (rAverageSpan : R) (rAveragePoints0 : Z) : ImageToLed :=
  let angleAveragePoints1 :=
    if (angleAveragePoints0 mod 2 =? 0)%Z
    then (angleAveragePoints0 + 1)%Z else angleAveragePoints0 in
  let angleAverageResolution0 :=
    if (1 <? angleAveragePoints1)%Z
    then (angleAverageSpan / IZR (angleAveragePoints1 - 1))%R else 0%R in
  let angleAverageResolution1 := getAngleRads angleAverageResolution0 in
  let rAveragePoints1 :=
    if (rAveragePoints0 mod 2 =? 0)%Z
    then (rAveragePoints0 + 1)%Z else rAveragePoints0 in
  let rAverageResolution1 :=
    if (1 <? rAveragePoints1)%Z
    then (rAverageSpan / IZR (rAveragePoints1 - 1))%R else 0%R in
  {| angleAverageResolution := angleAverageResolution1;
     rAverageResolution := rAverageResolution1;
     angleAveragePoints := angleAveragePoints1;
     rAveragePoints := rAveragePoints1;
     numberOfAveragedPixels := (angleAveragePoints1 * rAveragePoints1)%Z;
     self_img := None;
     imgBound := None |}.

(** [ImageToLed.setImage] (lines 53-55). *)
Definition setImage (self : ImageToLed) (image : Surface) : ImageToLed :=
  {| angleAverageResolution := angleAverageResolution self;
     rAverageResolution := rAverageResolution self;
     angleAveragePoints := angleAveragePoints self;
     rAveragePoints := rAveragePoints self;
     numberOfAveragedPixels := numberOfAveragedPixels self;
     self_img := Some image;
     imgBound := Some (get_rect image) |}.

(** Reading [self.imgBound]. *)
Definition get_imgBound (self : ImageToLed) : result Rect :=
  match imgBound self with
  | Some b => Ok b
  | None => Raise AttributeError
  end.

(** [ImageToLed.getLedColorArea] (lines 57-82): the outer loop runs over the
    angle index [t], the inner one over the radius index [r]. *)
Definition getLedColorArea (self : ImageToLed) (angle ledRPosition : R)
  : result (list (list (R * R))) :=
  mapM (fun t : Z =>
    let dangle := getAngleRads angle in
    let dangle :=
      (dangle + angleAverageResolution self
                * (IZR t - IZR (angleAveragePoints self - 1) / 2))%R in
    mapM (fun r : Z =>
      let dr := ledRPosition in
      let dr :=
        (dr + rAverageResolution self
              * (IZR r - IZR (rAveragePoints self - 1) / 2))%R in
      b <- get_imgBound self ;;
      let xPosition := IZR (centerx b) in
      let xPosition := (xPosition + dr * cos dangle)%R in
      let yPosition := IZR (centery b) in
      let yPosition := (yPosition + dr * sin dangle)%R in
      let yPosition := (IZR (height b) - yPosition)%R in
      Ok (xPosition, yPosition))
      (range (rAveragePoints self)))
    (range (angleAveragePoints self)).

(** The test of line 96; [and] evaluates its right operand only when the
    left one holds. *)
Definition in_bounds (self : ImageToLed) (xPosition yPosition : R)
  : result bool :=
  if Rltb (-1) xPosition then
    b <- get_imgBound self ;;
    if Rltb xPosition (IZR (width b)) then
      if Rltb (-1) yPosition then
        b <- get_imgBound self ;;
        Ok (Rltb yPosition (IZR (height b)))
      else Ok false
    else Ok false
  else Ok false.

(** The local variables of [getLedColor] that live across iterations. *)
Record locals : Type := {
  redValue : R;
  greenValue : R;
  blueValue : R;
  lastGoodPixel : pixel
}.

(** Lines 104-107.  The assignment goes through the object that both
    [imgPixelColor] and [lastGoodPixel] name. *)
Definition substitute_background (g : Globals) (imgPixelColor : pixel)
  : result pixel :=
  if (getitem imgPixelColor 3 <? 1)%Z then
    p <- setitem imgPixelColor 0 (tuple3_get (backgroundFrameColor g) 0) ;;
    p <- setitem p 1 (tuple3_get (backgroundFrameColor g) 1) ;;
    setitem p 2 (tuple3_get (backgroundFrameColor g) 2)
  else Ok imgPixelColor.

(** One iteration of the inner loop (lines 94-110).  After the [if]/[else]
    of lines 96-100 the names [imgPixelColor] and [lastGoodPixel] refer to
    one object in either branch, so the object left by lines 104-107 is the
    [lastGoodPixel] of the next iteration. *)
Definition visit (self : ImageToLed) (g : Globals) (st : locals) (aa : R * R)
  : result locals :=
  let xPosition := fst aa in
  let yPosition := snd aa in
  within <- in_bounds self xPosition yPosition ;;
  imgPixelColor <-
    (if within : bool
     then get_at (img g) (py_int xPosition, py_int yPosition)
     else Ok (lastGoodPixel st)) ;;
  let alphaValue := getitem imgPixelColor 3 in
  imgPixelColor <- substitute_background g imgPixelColor ;;
  Ok {| redValue :=
          (redValue st + IZR (getitem imgPixelColor 0 * alphaValue) / 255)%R;
        greenValue :=
          (greenValue st + IZR (getitem imgPixelColor 1 * alphaValue) / 255)%R;
        blueValue :=
          (blueValue st + IZR (getitem imgPixelColor 2 * alphaValue) / 255)%R;
        lastGoodPixel := imgPixelColor |}.

(** The local variables at line 90. *)
Definition initial_locals (g : Globals) : locals :=
  {| redValue := 0;
     greenValue := 0;
     blueValue := 0;
     lastGoodPixel :=
       Tuple (tuple3_get (backgroundFrameColor g) 0)
             (tuple3_get (backgroundFrameColor g) 1)
             (tuple3_get (backgroundFrameColor g) 2) 255 |}.

(** [ImageToLed.getLedColor] (lines 84-117). *)
Definition getLedColor (self : ImageToLed) (g : Globals)
    (angle ledRPosition : R) : result (R * R * R) :=
  averageArea <- getLedColorArea self angle ledRPosition ;;
  st <- foldM (fun st rr => foldM (visit self g) rr st)
              averageArea (initial_locals g) ;;
  red <- truediv (redValue st) (numberOfAveragedPixels self) ;;
  green <- truediv (greenValue st) (numberOfAveragedPixels self) ;;
  blue <- truediv (blueValue st) (numberOfAveragedPixels self) ;;
  Ok (red, green, blue).

(** [ImageToLed.getLedColors] (lines 119-125).  The [while] loop is unrolled
    at most [fuel] times; [None] means the fuel ran out before the loop
    condition failed. *)
Fixpoint getLedColors_loop (fuel : nat) (self : ImageToLed) (g : Globals)
    (angleIncrement ledRPosition : R) (angle : R) (ret : list (R * R * R))
  : option (result (list (R * R * R))) :=
  match fuel with
  | O => None
  | S fuel' =>
      if Rltb angle 360 then
        match getLedColor self g angle ledRPosition with
        | Ok c =>
            getLedColors_loop fuel' self g angleIncrement ledRPosition
                              (angle + angleIncrement)%R (ret ++ [c])
        | Raise e => Some (Raise e)
        end
      else Some (Ok ret)
  end.

Definition getLedColors (fuel : nat) (self : ImageToLed) (g : Globals)
    (angleIncrement ledRPosition : R)
  : option (result (list (R * R * R))) :=
  getLedColors_loop fuel self g angleIncrement ledRPosition 0%R [].

(** ** Calls made on an instance after construction

    Only [setImage] assigns an attribute of [self]; the three getters assign
    none. *)
Inductive call : Type :=
| CallSetImage (image : Surface)
| CallGetLedColorArea (angle ledRPosition : R)
| CallGetLedColor (angle ledRPosition : R)
| CallGetLedColors (angleIncrement ledRPosition : R).

Definition after_call (self : ImageToLed) (c : call) : ImageToLed :=
  match c with
  | CallSetImage image => setImage self image
  | CallGetLedColorArea _ _ => self
  | CallGetLedColor _ _ => self
  | CallGetLedColors _ _ => self
  end.

Definition after_calls (self : ImageToLed) (cs : list call) : ImageToLed :=
  fold_left after_call cs self.

(** ** The footprint as the specification words it

    The cell for angle index [t] and radius index [r] of a query, on an
    image with bounds [b]. *)
Definition sampleAngle (self : ImageToLed) (angle : R) (t : Z) : R :=
  (getAngleRads angle
   + angleAverageResolution self
     * (IZR t - IZR (angleAveragePoints self - 1) / 2))%R.

Definition sampleRadius (self : ImageToLed) (radius : R) (r : Z) : R :=
  (radius
   + rAverageResolution self * (IZR r - IZR (rAveragePoints self - 1) / 2))%R.

Definition footprint_cell (self : ImageToLed) (b : Rect) (angle radius : R)
    (t r : Z) : R * R :=
  ((IZR (centerx b)
    + sampleRadius self radius r * cos (sampleAngle self angle t))%R,
   (IZR (height b)
    - (IZR (centery b)
       + sampleRadius self radius r * sin (sampleAngle self angle t)))%R).

Definition footprint (self : ImageToLed) (b : Rect) (angle radius : R)
  : list (list (R * R)) :=
  map (fun t => map (footprint_cell self b angle radius t)
                    (range (rAveragePoints self)))
      (range (angleAveragePoints self)).

(** [grid[t][r]]. *)
Definition cell {A : Type} (grid : list (list A)) (t r : Z) : option A :=
  match nth_error grid (Z.to_nat t) with
  | Some row => nth_error row (Z.to_nat r)
  | None => None
  end.

(** The plain polar-to-Cartesian projection of a query, with the vertical
    flip. *)
Definition projection (b : Rect) (angle radius : R) : R * R :=
  ((IZR (centerx b) + radius * cos (getAngleRads angle))%R,
   (IZR (height b) - (IZR (centery b) + radius * sin (getAngleRads angle)))%R).

(** ** The sampled colour as the specification words it *)

(** The in-bounds test, on the coordinates before truncation. *)
Definition inside (b : Rect) (p : R * R) : bool :=
  Rltb (-1) (fst p) && Rltb (fst p) (IZR (width b))
  && Rltb (-1) (snd p) && Rltb (snd p) (IZR (height b)).

(** The same test on the truncated coordinates. *)
Definition truncated_inside (b : Rect) (p : R * R) : bool :=
  ((0 <=? py_int (fst p)) && (py_int (fst p) <? width b)
   && (0 <=? py_int (snd p)) && (py_int (snd p) <? height b))%Z.

(** The pixel under a point: truncate, then look up. *)
Definition pixel_under (image : Surface) (p : R * R) : Z * Z * Z * Z :=
  pixel_at image (py_int (fst p)) (py_int (snd p)).

(** The pixel taken at each point of a traversal: the one under the point
    when the point is in bounds, otherwise the last pixel taken in bounds,
    and [lastGood] while there is none. *)
Fixpoint taken_pixels (b : Rect) (image : Surface) (lastGood : Z * Z * Z * Z)
    (pts : list (R * R)) : list (Z * Z * Z * Z) :=
  match pts with
  | [] => []
  | p :: rest =>
      let q := if inside b p then pixel_under image p else lastGood in
      q :: taken_pixels b image q rest
  end.

(** The background colour at full opacity. *)
Definition opaque_background (bg : Z * Z * Z) : Z * Z * Z * Z :=
  let '(r, g, b) := bg in (r, g, b, 255%Z).

(** Alpha handling: a pixel whose alpha is below 1 takes the background's
    red, green and blue. *)
Definition blend (bg : Z * Z * Z) (q : Z * Z * Z * Z) : Z * Z * Z * Z :=
  let '(r, g, b, a) := q in
  if (a <? 1)%Z then let '(br, bg', bb) := bg in (br, bg', bb, a) else q.

(** One channel's contribution: [channel * alpha / 255]. *)
Definition weighted (c a : Z) : R := (IZR c * IZR a / 255)%R.

Definition red_part (q : Z * Z * Z * Z) : R :=
  let '(r, _, _, a) := q in weighted r a.
Definition green_part (q : Z * Z * Z * Z) : R :=
  let '(_, g, _, a) := q in weighted g a.
Definition blue_part (q : Z * Z * Z * Z) : R :=
  let '(_, _, b, a) := q in weighted b a.

(** Accumulation from 0, in list order. *)
Definition Rsum (l : list R) : R := fold_left Rplus l 0%R.

(** The colour of a query: every footprint point in angle-major,
    radius-minor order, its pixel or boundary substitute, the alpha handling,
    the three accumulated channels, each divided by
    [angleSamplePoints * radiusSamplePoints]. *)
Definition sampleColor_spec (self : ImageToLed) (b : Rect) (g : Globals)
    (angle radius : R) : R * R * R :=
  let points := concat (footprint self b angle radius) in
  let pixels :=
    map (blend (backgroundFrameColor g))
        (taken_pixels b (img g)
                      (opaque_background (backgroundFrameColor g)) points) in
  let count := IZR (angleAveragePoints self * rAveragePoints self) in
  ((Rsum (map red_part pixels) / count)%R,
   (Rsum (map green_part pixels) / count)%R,
   (Rsum (map blue_part pixels) / count)%R).

(** Channels that a [pygame.Color] accepts. *)
Definition color_ok (c : Z * Z * Z) : Prop :=
  let '(r, g, b) := c in
  (0 <= r <= 255 /\ 0 <= g <= 255 /\ 0 <= b <= 255)%Z.

(** ** The pixel object and the pixel value

    [lastGoodPixel] is an object that lines 105-107 may have written to.  It
    stands for the pixel value [q] last taken when it has [q]'s alpha and
    either still has [q]'s other channels, or has alpha below 1 and is a
    [pygame.Color] (whose other channels are then overwritten again before
    they are read). *)
Definition is_Color (p : pixel) : Prop :=
  match p with
  | Color _ _ _ _ => True
  | Tuple _ _ _ _ => False
  end.

Definition represents (p : pixel) (q : Z * Z * Z * Z) : Prop :=
  let '(r, g, b, a) := q in
  getitem p 3 = a
  /\ ((a < 1)%Z -> is_Color p)
  /\ ((1 <= a)%Z -> channels p = [r; g; b; a]).

(** The last point of a traversal prefix that passed the bounds test. *)
Fixpoint last_inside (b : Rect) (pts : list (R * R)) : option (R * R) :=
  match pts with
  | [] => None
  | p :: rest =>
      match last_inside b rest with
      | Some seen => Some seen
      | None => if inside b p then Some p else None
      end
  end.

(** The pixel value that an out-of-bounds point takes after the prefix
    [pts]: the pixel under the last in-bounds point, or the background at
    full opacity when there is none. *)
Definition substitute_after (b : Rect) (g : Globals) (pts : list (R * R))
  : Z * Z * Z * Z :=
  match last_inside b pts with
  | Some seen => pixel_under (img g) seen
  | None => opaque_background (backgroundFrameColor g)
  end.

(** ** Channel ranges *)

(** A pixel as [pygame] stores it: four channels in 0..255. *)
Definition pixel_ok (q : Z * Z * Z * Z) : Prop :=
  let '(r, g, b, a) := q in
  (0 <= r <= 255 /\ 0 <= g <= 255 /\ 0 <= b <= 255 /\ 0 <= a <= 255)%Z.

(** ** Python sequences *)

(** [l[i]]: a negative index counts from the end; outside [-len, len) it is
    an [IndexError]. *)
Definition py_index {A : Type} (l : list A) (i : Z) : result A :=
  let n := Z.of_nat (length l) in
  let j := if (i <? 0)%Z then (i + n)%Z else i in
  if ((0 <=? j) && (j <? n))%Z then
    match nth_error l (Z.to_nat j) with
    | Some x => Ok x
    | None => Raise IndexError
    end
  else Raise IndexError.

(** [n / d] on two numbers. *)
Definition truediv_float (n d : R) : result R :=
  if Req_dec_T d 0 then Raise ZeroDivisionError else Ok (n / d)%R.

(** ** Drawing

    The [pygame] calls that change the display are recorded in the order in
    which they are made; what each one paints is not modelled.  A
    computation that draws yields the calls made so far together with its
    value or the exception that stopped it. *)

(** The module constants of lines 6-10. *)
Definition RED : Z * Z * Z := (255, 0, 0)%Z.
Definition BLUE : Z * Z * Z := (0, 0, 255)%Z.
Definition GRAY : Z * Z * Z := (150, 150, 150)%Z.
Definition BLACK : Z * Z * Z := (0, 0, 0)%Z.

(** A colour argument: the float triple of [getLedColor], an int triple,
    or an int quadruple. *)
Inductive colour : Type :=
| FloatRGB (c : R * R * R)
| IntRGB (c : Z * Z * Z)
| IntRGBA (c : Z * Z * Z * Z).

Inductive command : Type :=
| fill (color : colour)
| draw_rect (color : colour) (rect : Rect) (line : Z)
| blit (source : Surface) (dest : Rect)
| draw_circle (color : colour) (center : Z * Z) (radius : R) (line : Z)
| draw_polygon (color : colour) (points : list (R * R))
| display_flip.

Definition drawing (A : Type) : Type := (list command * result A)%type.

Definition emit (c : command) : drawing unit := ([c], Ok tt).

Definition lift {A : Type} (r : result A) : drawing A := ([], r).

Definition dbind {A B : Type} (m : drawing A) (k : A -> drawing B)
  : drawing B :=
  match m with
  | (cs, Ok a) => let '(cs', r) := k a in (cs ++ cs', r)
  | (cs, Raise e) => (cs, Raise e)
  end.

Notation "x <~ c ;; k" := (dbind c (fun x => k))
  (at level 61, c at next level, right associativity).

(** [for x in l: body(x)] for a body that draws. *)
Fixpoint for_each {A : Type} (l : list A) (body : A -> drawing unit)
  : drawing unit :=
  match l with
  | [] => ([], Ok tt)
  | x :: xs => _ <~ body x ;; for_each xs body
  end.

(** ** class [LedDraw] *)

(** The attributes of an instance.  [ledColors] does not exist until
    [setColorMap] has run. *)
Record LedDraw : Type := {
  surf : Surface;
  angleIncrement : R;
  distanceBetweenLeds : R;
  numberOfLeds : Z;
  ledRadius : R;
  ledCenterOffset : R;
  shaftRadius : R;
  shaftColor : Z * Z * Z;
  ledColors : option (list (list (R * R * R)))
}.

(** [LedDraw.__init__] (lines 131-150); the caller passes the defaults
    [shaftRadius = 3] and [shaftColor = BLACK] when it omits them. *)
Definition LedDraw__init__ (surf0 : Surface)
    (angleIncrement0 distanceBetweenLeds0 : R) (numberOfLeds0 : Z)
    (ledRadius0 ledCenterOffset0 shaftRadius0 : R) (shaftColor0 : Z * Z * Z)
  : LedDraw :=
  {| surf := surf0;
     angleIncrement := angleIncrement0;
     distanceBetweenLeds := distanceBetweenLeds0;
     numberOfLeds := numberOfLeds0;
     ledRadius := ledRadius0;
     ledCenterOffset := ledCenterOffset0;
     shaftRadius := shaftRadius0;
     shaftColor := shaftColor0;
     ledColors := None |}.

(** [LedDraw.setColorMap] (lines 152-155). *)
Definition setColorMap (self : LedDraw) (table : list (list (R * R * R)))
  : LedDraw :=
  {| surf := surf self;
     angleIncrement := angleIncrement self;
     distanceBetweenLeds := distanceBetweenLeds self;
     numberOfLeds := numberOfLeds self;
     ledRadius := ledRadius self;
     ledCenterOffset := ledCenterOffset self;
     shaftRadius := shaftRadius self;
     shaftColor := shaftColor self;
     ledColors := Some table |}.

(** Reading [self.ledColors]. *)
Definition get_ledColors (self : LedDraw) : result (list (list (R * R * R))) :=
  match ledColors self with
  | Some table => Ok table
  | None => Raise AttributeError
  end.

(** [self.ledColors[ledIdx][angleIdx]]. *)
Definition ledColors_at (self : LedDraw) (ledIdx angleIdx : Z)
  : result (R * R * R) :=
  table <- get_ledColors self ;;
  row <- py_index table ledIdx ;;
  py_index row angleIdx.

(** [LedDraw.drawLed] (lines 157-171).  [ledLineColor] is the module global
    of line 229. *)
Definition drawLed (self : LedDraw) (ledLineColor : Z * Z * Z)
    (ledIdx : Z) (angle : R) (border : bool) : drawing unit :=
  let surfRect := get_rect (surf self) in
  q <~ lift (truediv_float angle (angleIncrement self)) ;;
  let angleIdx := py_int q in
  let angleRads := (angle * PI / 180)%R in
  let ledXPosition := IZR (centerx surfRect) in
  let ledXPosition :=
    (ledXPosition
     + (ledCenterOffset self + IZR ledIdx * distanceBetweenLeds self)
       * cos angleRads)%R in
  let ledXPosition := py_int ledXPosition in
  let ledYPosition := IZR (centery surfRect) in
  let ledYPosition :=
    (ledYPosition
     + (ledCenterOffset self + IZR ledIdx * distanceBetweenLeds self)
       * sin angleRads)%R in
  let ledYPosition := py_int (IZR (height surfRect) - ledYPosition)%R in
  c <~ lift (ledColors_at self ledIdx angleIdx) ;;
  _ <~ emit (draw_circle (FloatRGB c) (ledXPosition, ledYPosition)
                         (ledRadius self * (11 / 10))%R 0) ;;
  c <~ lift (ledColors_at self ledIdx angleIdx) ;;
  _ <~ emit (draw_circle (FloatRGB c) (ledXPosition, ledYPosition)
                         (ledRadius self) 0) ;;
  if border
  then emit (draw_circle (IntRGB ledLineColor) (ledXPosition, ledYPosition)
                         (ledRadius self) 1)
  else ([], Ok tt).

(** [LedDraw.draw] (lines 173-178). *)
Definition draw (self : LedDraw) (ledLineColor : Z * Z * Z)
    (angle : R) (border : bool) : drawing unit :=
  _ <~ emit (draw_circle (IntRGB (shaftColor self))
                         (centerx (get_rect (surf self)),
                          centery (get_rect (surf self)))
                         (shaftRadius self) 0) ;;
  for_each (range (numberOfLeds self))
           (fun ledIdx => drawLed self ledLineColor ledIdx angle border).

(** [LedDraw.drawAveragedAreas] (lines 180-186). *)
Definition drawAveragedAreas (self : LedDraw) (angle : R)
    (averagedPolyCoords : list (list (R * R))) : drawing unit :=
  for_each (range (Z.of_nat (length averagedPolyCoords)))
           (fun ledIdx =>
              q <~ lift (truediv_float angle (angleIncrement self)) ;;
              let angleIdx := py_int q in
              averageColor <~ lift (ledColors_at self ledIdx angleIdx) ;;
              averagedPolyCoordsI <~ lift (py_index averagedPolyCoords ledIdx) ;;
              emit (draw_polygon (FloatRGB averageColor) averagedPolyCoordsI)).

(** ** The main program (lines 188-299) *)

(** The parsed command line (lines 189-205); every numeric option is an
    [int]. *)
Record Args : Type := {
  alpha : Z;
  backgroundFrameWidth : Z;
  numberleds : Z;
  ledradius : Z;
  ledseparation : Z;
  angleavgspan : Z;
  angleavgpoints : Z;
  radialavgspan : Z;
  radialavgpoints : Z;
  ledcenteroffset : Z
}.

(** [rect.centerx = c] and [rect.centery = c] move the rectangle. *)
Definition set_centerx (r : Rect) (c : Z) : Rect :=
  {| left := (c - width r / 2)%Z; top := top r;
     width := width r; height := height r |}.
Definition set_centery (r : Rect) (c : Z) : Rect :=
  {| left := left r; top := (c - height r / 2)%Z;
     width := width r; height := height r |}.

(** The display surface that [pygame.display.set_mode] returns. *)
Definition set_mode (size : Z * Z) : Surface :=
  {| get_width := fst size; get_height := snd size;
     pixel_at := fun _ _ => (0, 0, 0, 255)%Z |}.

(** The names bound by lines 207-251 that the loop reads and never
    rebinds. *)
Record Program : Type := {
  args : Args;
  screen : Surface;
  backgroundFrame : Rect;
  globals : Globals;
  imgRect : Rect;
  ledLineColor : Z * Z * Z;
  imgToLed : ImageToLed;
  main_distanceBetweenLeds : Z;
  main_angleIncrement : Z;
  ledDraw : LedDraw;
  imgBorderColor : Z * Z * Z * Z
}.

(** The variables that the loop rebinds (lines 246-249). *)
Record LoopVars : Type := {
  angle : Z;
  raster : bool;
  running : bool;
  drawAverageArea : bool
}.

(** Lines 237-241: one sweep per LED, appended in index order. *)
Fixpoint build_ledColors (fuel : nat) (sampler : ImageToLed) (g : Globals)
    (a : Args) (distance increment : Z) (indices : list Z)
  : option (result (list (list (R * R * R)))) :=
  match indices with
  | [] => Some (Ok [])
  | ledIdx :: rest =>
      let ledRPosition := (ledcenteroffset a + ledIdx * distance)%Z in
      match getLedColors fuel sampler g (IZR increment) (IZR ledRPosition) with
      | None => None
      | Some (Raise e) => Some (Raise e)
      | Some (Ok ledColorsI) =>
          match build_ledColors fuel sampler g a distance increment rest with
          | None => None
          | Some (Raise e) => Some (Raise e)
          | Some (Ok table) => Some (Ok (ledColorsI :: table))
          end
      end
  end.

(** Lines 207-251.  [scaled] is the image that lines 219-223 load and scale
    to the frame size; [fuel] bounds each sweep. *)
Definition setup (fuel : nat) (a : Args) (scaled : Surface)
  : option (result (Program * LoopVars)) :=
  let screenSize := (backgroundFrameWidth a, backgroundFrameWidth a) in
  let screen0 := set_mode screenSize in
  let backgroundFrame0 :=
    {| left := 0; top := 0;
       width := backgroundFrameWidth a; height := backgroundFrameWidth a |} in
  let backgroundFrame0 :=
    set_centerx backgroundFrame0 (centerx (get_rect screen0)) in
  let backgroundFrame0 :=
    set_centery backgroundFrame0 (centery (get_rect screen0)) in
  let g := {| img := scaled; backgroundFrameColor := WHITE |} in
  let imgRect0 := get_rect scaled in
  let imgRect0 := set_centerx imgRect0 (centerx backgroundFrame0) in
  let imgRect0 := set_centery imgRect0 (centery backgroundFrame0) in
  let sampler :=
    __init__ (IZR (angleavgspan a)) (angleavgpoints a)
             (IZR (radialavgspan a)) (radialavgpoints a) in
  let sampler := setImage sampler scaled in
  let distance := (2 * ledradius a + ledseparation a)%Z in
  let increment := 1%Z in
  match build_ledColors fuel sampler g a distance increment
                        (range (numberleds a)) with
  | None => None
  | Some (Raise e) => Some (Raise e)
  | Some (Ok table) =>
      let drawer :=
        LedDraw__init__ screen0 (IZR increment) (IZR distance) (numberleds a)
                        (IZR (ledradius a)) (IZR (ledcenteroffset a))
                        3 BLACK in
      let drawer := setColorMap drawer table in
      Some (Ok ({| args := a;
                   screen := screen0;
                   backgroundFrame := backgroundFrame0;
                   globals := g;
                   imgRect := imgRect0;
                   ledLineColor := BLACK;
                   imgToLed := sampler;
                   main_distanceBetweenLeds := distance;
                   main_angleIncrement := increment;
                   ledDraw := drawer;
                   imgBorderColor := (255, 0, 0, alpha a)%Z |},
                {| angle := 0; raster := false; running := true;
                   drawAverageArea := true |}))
  end.

(** The events that the loop tells apart. *)
Inductive key : Type := K_RIGHT | K_LEFT | K_UP | K_other.
Inductive event : Type := QUIT | KEYDOWN (k : key) | other_event.

(** The body of the [for] loop of lines 253-263. *)
Definition handle_event (increment : Z) (v : LoopVars) (e : event)
  : LoopVars :=
  let v :=
    match e with
    | QUIT => {| angle := angle v; raster := raster v; running := false;
                 drawAverageArea := drawAverageArea v |}
    | _ => v
    end in
  match e with
  | KEYDOWN K_RIGHT =>
      {| angle := (angle v - increment)%Z; raster := raster v;
         running := running v; drawAverageArea := drawAverageArea v |}
  | KEYDOWN K_LEFT =>
      {| angle := (angle v + increment)%Z; raster := raster v;
         running := running v; drawAverageArea := drawAverageArea v |}
  | KEYDOWN K_UP =>
      {| angle := angle v; raster := negb (raster v);
         running := running v; drawAverageArea := drawAverageArea v |}
  | _ => v
  end.

(** Lines 265-268. *)
Definition wrap_angle (v : LoopVars) : LoopVars :=
  let v :=
    if (angle v =? 360)%Z
    then {| angle := 0; raster := raster v; running := running v;
            drawAverageArea := drawAverageArea v |}
    else v in
  if (angle v =? -1)%Z
  then {| angle := 359; raster := raster v; running := running v;
          drawAverageArea := drawAverageArea v |}
  else v.

(** Lines 253-268: the events of one frame, then the two wrap tests. *)
Definition update (p : Program) (v : LoopVars) (events : list event)
  : LoopVars :=
  wrap_angle (fold_left (handle_event (main_angleIncrement p)) events v).

(** Lines 285-294: the outline of one LED's footprint. *)
Definition outline (p : Program) (currentAngle : Z) (ledIdx : Z)
  : result (list (R * R)) :=
  let ledRPosition :=
    (ledcenteroffset (args p) + ledIdx * main_distanceBetweenLeds p)%Z in
  ledAveragedPolyCoords <-
    getLedColorArea (imgToLed p) (IZR currentAngle) (IZR ledRPosition) ;;
  ri <- py_index ledAveragedPolyCoords 0 ;;
  xy0i <- py_index ri 0 ;;
  xy1i <- py_index ri (-1) ;;
  rf <- py_index ledAveragedPolyCoords (-1) ;;
  xy0f <- py_index rf 0 ;;
  xy1f <- py_index rf (-1) ;;
  Ok [xy0i; xy1i; xy1f; xy0f; xy0i].

(** Lines 270-297: what one iteration draws. *)
Definition render (p : Program) (v : LoopVars) : drawing unit :=
  _ <~ emit (fill (IntRGB GRAY)) ;;
  _ <~ emit (draw_rect (IntRGB (backgroundFrameColor (globals p)))
                       (backgroundFrame p) 0) ;;
  _ <~ emit (blit (img (globals p)) (imgRect p)) ;;
  _ <~ emit (draw_rect (IntRGBA (imgBorderColor p)) (imgRect p) 1) ;;
  _ <~ (if raster v
        then for_each (range 360)
               (fun a => draw (ledDraw p) (ledLineColor p) (IZR a) false)
        else
          _ <~ draw (ledDraw p) (ledLineColor p) (IZR (angle v)) true ;;
          if drawAverageArea v
          then
            averagedPolyCoords <~
              lift (mapM (outline p (angle v)) (range (numberleds (args p)))) ;;
            drawAveragedAreas (ledDraw p) (IZR (angle v)) averagedPolyCoords
          else ([], Ok tt)) ;;
  emit display_flip.

(** One iteration of the [while] loop (lines 252-297). *)
Definition frame (p : Program) (v : LoopVars) (events : list event)
  : LoopVars * drawing unit :=
  let v' := update p v events in
  (v', render p v').

(** ** The colour table, entry by entry

    What lines 237-241 compute when every sweep returns: row [ledIdx] holds
    the colours of the angles 0, 1, ..., 359 at that LED's radius. *)
Definition table_row (sampler : ImageToLed) (g : Globals) (ledRPosition : Z)
  : list (R * R * R) :=
  map (fun i : nat =>
         sampleColor_spec sampler (get_rect (img g)) g
                          (INR i * 1)%R (IZR ledRPosition))
      (seq 0 360).

Definition table_of (sampler : ImageToLed) (g : Globals) (a : Args)
    (distance : Z) (indices : list Z) : list (list (R * R * R)) :=
  map (fun ledIdx =>
         table_row sampler g (ledcenteroffset a + ledIdx * distance)%Z)
      indices.

(** The net number of left-arrow presses in a frame, the number of
    up-arrow presses, and whether the frame holds a [QUIT]. *)
Fixpoint net_left (events : list event) : Z :=
  match events with
  | [] => 0
  | KEYDOWN K_LEFT :: rest => (net_left rest + 1)%Z
  | KEYDOWN K_RIGHT :: rest => (net_left rest - 1)%Z
  | _ :: rest => net_left rest
  end.

Fixpoint ups (events : list event) : nat :=
  match events with
  | [] => 0
  | KEYDOWN K_UP :: rest => S (ups rest)
  | _ :: rest => ups rest
  end.

Fixpoint has_quit (events : list event) : bool :=
  match events with
  | [] => false
  | QUIT :: _ => true
  | _ :: rest => has_quit rest
  end.

(** The default command line (lines 191-202). *)
Definition default_args : Args :=
  {| alpha := 10; backgroundFrameWidth := 600; numberleds := 15;
     ledradius := 8; ledseparation := 1; angleavgspan := 1;
     angleavgpoints := 3; radialavgspan := 10; radialavgpoints := 3;
     ledcenteroffset := 15 |}.

(** A 600x600 image, opaque red everywhere. *)
Definition red_frame : Surface :=
  {| get_width := 600; get_height := 600;
     pixel_at := fun _ _ => (255, 0, 0, 255)%Z |}.

(** The circles of one LED: the halo, the disc, and the ring when a border
    is asked for. *)
Definition led_circles (c : R * R * R) (center : Z * Z) (radius : R)
    (line : Z * Z * Z) (border : bool) : list command :=
  [draw_circle (FloatRGB c) center (radius * (11 / 10))%R 0;
   draw_circle (FloatRGB c) center radius 0]
  ++ (if border then [draw_circle (IntRGB line) center radius 1] else []).

(** The pixel under a point. *)
Definition truncate (xy : R * R) : Z * Z := (py_int (fst xy), py_int (snd xy)).

(** The shaft circle of [LedDraw.draw]. *)
Definition shaft_circle (self : LedDraw) : command :=
  draw_circle (IntRGB (shaftColor self))
              (centerx (get_rect (surf self)), centery (get_rect (surf self)))
              (shaftRadius self) 0.

(** The four calls that open every frame (lines 270-274). *)
Definition backdrop (p : Program) : list command :=
  [fill (IntRGB GRAY);
   draw_rect (IntRGB (backgroundFrameColor (globals p))) (backgroundFrame p) 0;
   blit (img (globals p)) (imgRect p);
   draw_rect (IntRGBA (imgBorderColor p)) (imgRect p) 1].

(** The closed outline through the four corner cells of a grid. *)
Definition corners {A : Type} (grid : list (list A)) (n m : Z)
  : option (list A) :=
  match cell grid 0 0, cell grid 0 (m - 1),
        cell grid (n - 1) (m - 1), cell grid (n - 1) 0 with
  | Some c00, Some c0m, Some cnm, Some cn0 => Some [c00; c0m; cnm; cn0; c00]
  | _, _, _, _ => None
  end.

(** ** Example images *)

(** A 3x3 image, transparent everywhere. *)
Definition blank_image : Surface :=
  {| get_width := 3; get_height := 3;
     pixel_at := fun _ _ => (0, 0, 0, 0)%Z |}.

(** A 3x3 image, opaque red everywhere. *)
Definition red_image : Surface :=
  {| get_width := 3; get_height := 3;
     pixel_at := fun _ _ => (255, 0, 0, 255)%Z |}.

(** A 1x1 image whose pixel is opaque with the given colour. *)
Definition one_pixel (r g b : Z) : Surface :=
  {| get_width := 1; get_height := 1;
     pixel_at := fun _ _ => (r, g, b, 255%Z) |}.

(** The globals of a run of the main program on [image]: line 216 sets the
    background to [WHITE]. *)
Definition run_globals (image : Surface) : Globals :=
  {| img := image; backgroundFrameColor := WHITE |}.

(** * Properties *)

(** ** The exception monad and the loops *)

Lemma mapM_Ok {A B : Type} (f : A -> B) (l : list A) :
  mapM (fun x => Ok (f x)) l = Ok (map f l).
Proof.
  induction l as [|x xs IH]; simpl; [reflexivity|].
  rewrite IH. reflexivity.
Qed.

Lemma mapM_ext_in {A B : Type} (f h : A -> result B) (l : list A) :
  (forall x, In x l -> f x = h x) -> mapM f l = mapM h l.
Proof.
  induction l as [|x xs IH]; intros E; simpl; [reflexivity|].
  rewrite (E x) by (left; reflexivity).
  rewrite IH by (intros y Hy; apply E; right; exact Hy).
  reflexivity.
Qed.

Lemma foldM_app {S A : Type} (f : S -> A -> result S) (l1 l2 : list A) (s : S) :
  foldM f (l1 ++ l2) s = (s' <- foldM f l1 s ;; foldM f l2 s').
Proof.
  revert s. induction l1 as [|x xs IH]; intros s; simpl; [reflexivity|].
  destruct (f s x) as [s'|e]; simpl; [apply IH|reflexivity].
Qed.

(** The nested loops of [getLedColor] visit the rows one after the other:
    the traversal is the one of the concatenated grid. *)
Lemma foldM_concat {S A : Type} (f : S -> A -> result S)
    (grid : list (list A)) (s : S) :
  foldM (fun st rr => foldM f rr st) grid s = foldM f (concat grid) s.
Proof.
  revert s. induction grid as [|row rows IH]; intros s; simpl; [reflexivity|].
  rewrite foldM_app.
  destruct (foldM f row s) as [s'|e]; simpl; [apply IH|reflexivity].
Qed.

Lemma range_length (n : Z) : length (range n) = Z.to_nat n.
Proof. unfold range. rewrite length_map, length_seq. reflexivity. Qed.

Lemma range_nth_error (n i : Z) :
  (0 <= i < n)%Z -> nth_error (range n) (Z.to_nat i) = Some i.
Proof.
  intros Hi. unfold range.
  rewrite nth_error_map.
  rewrite nth_error_seq.
  destruct (Nat.ltb_spec (Z.to_nat i) (Z.to_nat n)) as [_|Hge]; [|lia].
  simpl. f_equal. lia.
Qed.

(** ** Configuration construction *)

Lemma getAngleRads_0 : getAngleRads 0 = 0%R.
Proof. unfold getAngleRads. lra. Qed.

Lemma init_points_odd (aspan : R) (ap : Z) (rspan : R) (rp : Z) :
  Z.odd (angleAveragePoints (__init__ aspan ap rspan rp)) = true
  /\ Z.odd (rAveragePoints (__init__ aspan ap rspan rp)) = true.
Proof.
  simpl. split.
  - destruct (Z.eqb_spec (ap mod 2) 0) as [E|E].
    + rewrite Z.odd_add. rewrite <- Z.negb_even, Zeven_mod, E. reflexivity.
    + rewrite <- Z.negb_even, Zeven_mod.
      destruct (Z.eqb_spec (ap mod 2) 0); [contradiction|reflexivity].
  - destruct (Z.eqb_spec (rp mod 2) 0) as [E|E].
    + rewrite Z.odd_add. rewrite <- Z.negb_even, Zeven_mod, E. reflexivity.
    + rewrite <- Z.negb_even, Zeven_mod.
      destruct (Z.eqb_spec (rp mod 2) 0); [contradiction|reflexivity].
Qed.

(** No call made after construction touches the five configuration
    attributes. *)
Lemma after_calls_config (self : ImageToLed) (cs : list call) :
  angleAverageResolution (after_calls self cs) = angleAverageResolution self
  /\ rAverageResolution (after_calls self cs) = rAverageResolution self
  /\ angleAveragePoints (after_calls self cs) = angleAveragePoints self
  /\ rAveragePoints (after_calls self cs) = rAveragePoints self
  /\ numberOfAveragedPixels (after_calls self cs) = numberOfAveragedPixels self.
Proof.
  unfold after_calls. revert self.
  induction cs as [|c cs IH]; intros self; simpl.
  - repeat split.
  - destruct (IH (after_call self c)) as (E1 & E2 & E3 & E4 & E5).
    rewrite E1, E2, E3, E4, E5.
    destruct c; simpl; repeat split.
Qed.

(** C7: after construction from any inputs, and after any later calls, the
    two stored sample-point counts are odd, each being the input count
    incremented by one when that was even; the angle step is the span divided
    by the count minus one, converted to radians, when the count exceeds one,
    and 0 when the count is one; the radius step is the span divided by the
    count minus one when the count exceeds one and 0 otherwise. *)
Theorem config_steps_and_odd_counts
    (angleAverageSpan : R) (angleAveragePoints0 : Z)
    (rAverageSpan : R) (rAveragePoints0 : Z) (later : list call) :
  let self :=
    after_calls
      (__init__ angleAverageSpan angleAveragePoints0
                rAverageSpan rAveragePoints0) later in
  Z.odd (angleAveragePoints self) = true
  /\ Z.odd (rAveragePoints self) = true
  /\ angleAveragePoints self
     = (if Z.even angleAveragePoints0
        then angleAveragePoints0 + 1 else angleAveragePoints0)%Z
  /\ rAveragePoints self
     = (if Z.even rAveragePoints0
        then rAveragePoints0 + 1 else rAveragePoints0)%Z
  /\ ((1 < angleAveragePoints self)%Z ->
      angleAverageResolution self
      = getAngleRads (angleAverageSpan / IZR (angleAveragePoints self - 1)))
  /\ (angleAveragePoints self = 1%Z -> angleAverageResolution self = 0%R)
  /\ ((1 < rAveragePoints self)%Z ->
      rAverageResolution self
      = (rAverageSpan / IZR (rAveragePoints self - 1))%R)
  /\ (~ (1 < rAveragePoints self)%Z -> rAverageResolution self = 0%R).
Proof.
  intros self. subst self.
  destruct (after_calls_config
              (__init__ angleAverageSpan angleAveragePoints0
                        rAverageSpan rAveragePoints0) later)
    as (E1 & E2 & E3 & E4 & _).
  rewrite E1, E2, E3, E4.
  destruct (init_points_odd angleAverageSpan angleAveragePoints0
                            rAverageSpan rAveragePoints0) as [Oa Or].
  split; [exact Oa|]. split; [exact Or|].
  simpl. rewrite !Zeven_mod.
  split; [reflexivity|]. split; [reflexivity|].
  repeat split.
  - intros H. apply Z.ltb_lt in H. rewrite H. reflexivity.
  - intros H. rewrite H. simpl. apply getAngleRads_0.
  - intros H. apply Z.ltb_lt in H. rewrite H. reflexivity.
  - intros H. destruct (Z.ltb_spec 1
      (if (rAveragePoints0 mod 2 =? 0)%Z
       then (rAveragePoints0 + 1)%Z else rAveragePoints0)) as [L|L];
      [contradiction|reflexivity].
Qed.

(** ** The footprint *)

(** Once [setImage] has run, [getLedColorArea] returns and its value is the
    grid of [footprint_cell]s. *)
Lemma getLedColorArea_footprint (self : ImageToLed) (b : Rect)
    (angle radius : R) :
  imgBound self = Some b ->
  getLedColorArea self angle radius = Ok (footprint self b angle radius).
Proof.
  intros Hb. unfold getLedColorArea, footprint.
  rewrite <- mapM_Ok. apply mapM_ext_in. intros t _.
  rewrite <- mapM_Ok. apply mapM_ext_in. intros r _.
  unfold get_imgBound. rewrite Hb. reflexivity.
Qed.

Lemma footprint_length (self : ImageToLed) (b : Rect) (angle radius : R) :
  length (footprint self b angle radius) = Z.to_nat (angleAveragePoints self).
Proof. unfold footprint. rewrite length_map. apply range_length. Qed.

Lemma footprint_row_length (self : ImageToLed) (b : Rect) (angle radius : R)
    (row : list (R * R)) :
  In row (footprint self b angle radius) ->
  length row = Z.to_nat (rAveragePoints self).
Proof.
  unfold footprint. intros Hin. apply in_map_iff in Hin.
  destruct Hin as (t & <- & _). rewrite length_map. apply range_length.
Qed.

Lemma footprint_cell_at (self : ImageToLed) (b : Rect) (angle radius : R)
    (t r : Z) :
  (0 <= t < angleAveragePoints self)%Z ->
  (0 <= r < rAveragePoints self)%Z ->
  cell (footprint self b angle radius) t r
  = Some (footprint_cell self b angle radius t r).
Proof.
  intros Ht Hr. unfold cell, footprint.
  rewrite nth_error_map, (range_nth_error _ _ Ht). simpl.
  rewrite nth_error_map, (range_nth_error _ _ Hr). reflexivity.
Qed.

(** C2: for every configuration, image and query, [getLedColorArea] returns
    a grid with one row per angle sample and one column per radius sample,
    indexed [t][r], whose cell (t, r) is
    x = centerx + sampleRadius * cos sampleAngle and
    y = height - (centery + sampleRadius * sin sampleAngle), with
    sampleAngle = getAngleRads angle + angleStep * (t - (angleSamplePoints-1)/2)
    and sampleRadius = radius + radiusStep * (r - (radiusSamplePoints-1)/2). *)
Theorem footprint_grid
    (angleAverageSpan : R) (angleAveragePoints0 : Z)
    (rAverageSpan : R) (rAveragePoints0 : Z) (image : Surface)
    (angle radius : R) :
  let self :=
    setImage (__init__ angleAverageSpan angleAveragePoints0
                       rAverageSpan rAveragePoints0) image in
  let b := get_rect image in
  exists grid : list (list (R * R)),
    getLedColorArea self angle radius = Ok grid
    /\ length grid = Z.to_nat (angleAveragePoints self)
    /\ (forall row, In row grid ->
                    length row = Z.to_nat (rAveragePoints self))
    /\ (forall t r : Z,
          (0 <= t < angleAveragePoints self)%Z ->
          (0 <= r < rAveragePoints self)%Z ->
          let sampleAngle :=
            (getAngleRads angle
             + angleAverageResolution self
               * (IZR t - IZR (angleAveragePoints self - 1) / 2))%R in
          let sampleRadius :=
            (radius
             + rAverageResolution self
               * (IZR r - IZR (rAveragePoints self - 1) / 2))%R in
          cell grid t r
          = Some ((IZR (centerx b) + sampleRadius * cos sampleAngle)%R,
                  (IZR (height b)
                   - (IZR (centery b) + sampleRadius * sin sampleAngle))%R)).
Proof.
  intros self b.
  exists (footprint self b angle radius).
  split; [apply getLedColorArea_footprint; reflexivity|].
  split; [apply footprint_length|].
  split; [apply footprint_row_length|].
  intros t r Ht Hr sampleAngle0 sampleRadius0.
  rewrite (footprint_cell_at self b angle radius t r Ht Hr). reflexivity.
Qed.

(** The offset of the middle sample is zero. *)
Lemma middle_offset (n : Z) :
  Z.odd n = true -> (IZR ((n - 1) / 2) - IZR (n - 1) / 2 = 0)%R.
Proof.
  intros Hodd.
  assert (E : (n - 1 = 2 * ((n - 1) / 2))%Z).
  { rewrite Z.odd_spec in Hodd. destruct Hodd as [k Hk]. subst n.
    replace (2 * k + 1 - 1)%Z with (k * 2)%Z by lia.
    rewrite Z.div_mul by lia. lia. }
  rewrite E at 2. rewrite mult_IZR. lra.
Qed.

(** C8: for every odd-coerced pair of point counts (each at least 1) and
    every query, the middle cell of the footprint grid, at index (n-1)/2 on
    both axes, is the zero-offset Cartesian projection of the query; with one
    point on each axis the grid is that single point. *)
Theorem footprint_middle_is_projection
    (angleAverageSpan : R) (angleAveragePoints0 : Z)
    (rAverageSpan : R) (rAveragePoints0 : Z) (image : Surface)
    (angle radius : R) :
  let self :=
    setImage (__init__ angleAverageSpan angleAveragePoints0
                       rAverageSpan rAveragePoints0) image in
  (1 <= angleAveragePoints self)%Z ->
  (1 <= rAveragePoints self)%Z ->
  exists grid : list (list (R * R)),
    getLedColorArea self angle radius = Ok grid
    /\ cell grid ((angleAveragePoints self - 1) / 2)
                 ((rAveragePoints self - 1) / 2)
       = Some (projection (get_rect image) angle radius)
    /\ (angleAveragePoints self = 1%Z -> rAveragePoints self = 1%Z ->
        grid = [[projection (get_rect image) angle radius]]).
Proof.
  intros self Ha Hr.
  destruct (init_points_odd angleAverageSpan angleAveragePoints0
                            rAverageSpan rAveragePoints0) as [Oa Or].
  change (Z.odd (angleAveragePoints self) = true) in Oa.
  change (Z.odd (rAveragePoints self) = true) in Or.
  exists (footprint self (get_rect image) angle radius).
  split; [apply getLedColorArea_footprint; reflexivity|].
  assert (Mid : footprint_cell self (get_rect image) angle radius
                  ((angleAveragePoints self - 1) / 2)
                  ((rAveragePoints self - 1) / 2)
                = projection (get_rect image) angle radius).
  { unfold footprint_cell, projection, sampleAngle, sampleRadius.
    rewrite (middle_offset _ Oa), (middle_offset _ Or).
    rewrite !Rmult_0_r, !Rplus_0_r. reflexivity. }
  split.
  - rewrite footprint_cell_at.
    + rewrite Mid. reflexivity.
    + split; [apply Z.div_pos; lia|].
      apply Z.div_lt_upper_bound; lia.
    + split; [apply Z.div_pos; lia|].
      apply Z.div_lt_upper_bound; lia.
  - intros E1 E2. unfold footprint.
    rewrite E1, E2 in Mid. rewrite E1, E2. simpl.
    change ((1 - 1) / 2)%Z with 0%Z in Mid. rewrite Mid. reflexivity.
Qed.

Lemma footprint_middle_is_projection_witness :
  exists grid : list (list (R * R)),
    getLedColorArea (setImage (__init__ 1 3 10 3) blank_image) 45 1 = Ok grid
    /\ cell grid ((3 - 1) / 2) ((3 - 1) / 2)
       = Some (projection (get_rect blank_image) 45 1)
    /\ (3%Z = 1%Z -> 3%Z = 1%Z ->
        grid = [[projection (get_rect blank_image) 45 1]]).
Proof.
  apply (footprint_middle_is_projection 1 3 10 3 blank_image 45 1);
    simpl; lia.
Defined.

(** ** Truncation and the bounds test *)

Lemma Rltb_true (x y : R) : Rltb x y = true <-> (x < y)%R.
Proof.
  unfold Rltb. destruct (Rlt_dec x y); split; intros H;
    try reflexivity; try assumption; try discriminate; contradiction.
Qed.

Lemma Rltb_false (x y : R) : Rltb x y = false <-> (y <= x)%R.
Proof.
  unfold Rltb. destruct (Rlt_dec x y); split; intros H;
    try reflexivity; try discriminate; lra.
Qed.

Lemma py_int_nonneg (x : R) : (0 <= x)%R -> py_int x = Int_part x.
Proof. intros H. unfold py_int. destruct (Rle_dec 0 x); [reflexivity|lra]. Qed.

Lemma py_int_neg (x : R) : (x < 0)%R -> py_int x = (- Int_part (- x))%Z.
Proof. intros H. unfold py_int. destruct (Rle_dec 0 x); [lra|reflexivity]. Qed.

Lemma Int_part_bounds (x : R) :
  (IZR (Int_part x) <= x < IZR (Int_part x) + 1)%R.
Proof. destruct (base_Int_part x) as [H1 H2]. lra. Qed.

(** A coordinate that passes the test of line 96 truncates to a valid
    index. *)
Lemma py_int_range (x : R) (w : Z) :
  (1 <= w)%Z -> (-1 < x)%R -> (x < IZR w)%R -> (0 <= py_int x < w)%Z.
Proof.
  intros Hw Hlo Hhi.
  destruct (Rle_dec 0 x) as [Hx|Hx].
  - rewrite py_int_nonneg by exact Hx.
    destruct (Int_part_bounds x) as [H1 H2]. split.
    + assert (L : (-1 < Int_part x)%Z) by (apply lt_IZR; lra). lia.
    + apply lt_IZR. lra.
  - rewrite py_int_neg by lra.
    destruct (Int_part_bounds (- x)) as [H1 H2].
    assert (L : (-1 < Int_part (- x))%Z) by (apply lt_IZR; lra).
    assert (U : (Int_part (- x) < 1)%Z) by (apply lt_IZR; lra).
    lia.
Qed.

Lemma py_int_below (x : R) : (x <= -1)%R -> (py_int x < 0)%Z.
Proof.
  intros Hx. rewrite py_int_neg by lra.
  destruct (Int_part_bounds (- x)) as [H1 H2].
  assert (L : (0 < Int_part (- x))%Z) by (apply lt_IZR; lra). lia.
Qed.

Lemma py_int_above (x : R) (w : Z) :
  (1 <= w)%Z -> (IZR w <= x)%R -> (w <= py_int x)%Z.
Proof.
  intros Hw Hx.
  assert (H1 : (1 <= IZR w)%R) by (apply IZR_le; exact Hw).
  rewrite py_int_nonneg by lra.
  destruct (Int_part_bounds x) as [H2 H3].
  assert (L : (w - 1 < Int_part x)%Z).
  { apply lt_IZR. rewrite minus_IZR. lra. }
  lia.
Qed.

(** One axis of the test of line 96, before and after truncation. *)
Lemma axis_truncated (x : R) (w : Z) :
  (1 <= w)%Z ->
  Rltb (-1) x && Rltb x (IZR w) = ((0 <=? py_int x) && (py_int x <? w))%Z.
Proof.
  intros Hw.
  destruct (Rlt_dec (-1) x) as [L|L].
  - destruct (Rlt_dec x (IZR w)) as [U|U].
    + destruct (py_int_range x w Hw L U) as [A B].
      rewrite (proj2 (Rltb_true (-1) x) L), (proj2 (Rltb_true x (IZR w)) U).
      rewrite (proj2 (Z.leb_le _ _) A), (proj2 (Z.ltb_lt _ _) B).
      reflexivity.
    + assert (A : (w <= py_int x)%Z)
        by (apply py_int_above; [exact Hw|lra]).
      rewrite (proj2 (Rltb_false x (IZR w))) by lra.
      rewrite (proj2 (Z.ltb_ge _ _) A).
      rewrite !andb_false_r. reflexivity.
  - assert (A : (py_int x < 0)%Z) by (apply py_int_below; lra).
    rewrite (proj2 (Rltb_false (-1) x)) by lra.
    rewrite (proj2 (Z.leb_gt _ _) A). reflexivity.
Qed.

(** On an image of at least 1x1 pixels the test of line 96 holds exactly
    when the truncated coordinates are inside the image. *)
Lemma inside_truncated (b : Rect) (p : R * R) :
  (1 <= width b)%Z -> (1 <= height b)%Z ->
  inside b p = truncated_inside b p.
Proof.
  intros Hw Hh. destruct p as [x y]. unfold inside, truncated_inside. simpl.
  rewrite (axis_truncated x _ Hw).
  rewrite <- (andb_assoc _ (Rltb (-1) y)), (axis_truncated y _ Hh).
  rewrite <- (andb_assoc _ (0 <=? py_int y)%Z). reflexivity.
Qed.

(** The short-circuit test of line 96 is the four-way conjunction. *)
Lemma in_bounds_inside (self : ImageToLed) (b : Rect) (x y : R) :
  imgBound self = Some b ->
  in_bounds self x y = Ok (inside b (x, y)).
Proof.
  intros Hb. unfold in_bounds, inside, get_imgBound. rewrite Hb. simpl.
  destruct (Rltb (-1) x); [|reflexivity].
  destruct (Rltb x (IZR (width b))); [|reflexivity].
  destruct (Rltb (-1) y); reflexivity.
Qed.

(** ** One traversal of [getLedColor]

    [setImage] has run on an image of at least one pixel, with bounds [b];
    the module global [img] is at least as large (the main program passes
    [img] itself, lines 219-233); the background colour is a colour. *)
Section Traversal.

Variable self : ImageToLed.
Variable g : Globals.
Variable b : Rect.

Hypothesis bound_set : imgBound self = Some b.
Hypothesis width_pos : (1 <= width b)%Z.
Hypothesis height_pos : (1 <= height b)%Z.
Hypothesis width_fits : (width b <= get_width (img g))%Z.
Hypothesis height_fits : (height b <= get_height (img g))%Z.
Hypothesis background_ok : color_ok (backgroundFrameColor g).

(** The look-up of line 97 never raises. *)
Lemma get_at_inside (pt : R * R) :
  inside b pt = true ->
  exists r gr bl a,
    pixel_under (img g) pt = (r, gr, bl, a)
    /\ get_at (img g) (py_int (fst pt), py_int (snd pt))
       = Ok (Color r gr bl a).
Proof.
  intros Hin.
  rewrite inside_truncated in Hin by assumption.
  unfold truncated_inside in Hin.
  apply andb_true_iff in Hin. destruct Hin as [Hin Hy2].
  apply andb_true_iff in Hin. destruct Hin as [Hin Hy1].
  apply andb_true_iff in Hin. destruct Hin as [Hx1 Hx2].
  apply Z.leb_le in Hx1, Hy1. apply Z.ltb_lt in Hx2, Hy2.
  unfold get_at, pixel_under.
  replace ((0 <=? py_int (fst pt)) && (py_int (fst pt) <? get_width (img g))
           && (0 <=? py_int (snd pt))
           && (py_int (snd pt) <? get_height (img g)))%Z with true.
  2:{ symmetry. rewrite !andb_true_iff.
      rewrite !Z.leb_le, !Z.ltb_lt. lia. }
  destruct (pixel_at (img g) (py_int (fst pt)) (py_int (snd pt)))
    as [[[r gr] bl] a].
  exists r, gr, bl, a. split; reflexivity.
Qed.

Lemma setitem_Color (r gr bl a v : Z) (i : nat) :
  (0 <= v <= 255)%Z -> (i < 3)%nat ->
  setitem (Color r gr bl a) i v
  = Ok (match i with
        | 0%nat => Color v gr bl a
        | 1%nat => Color r v bl a
        | _ => Color r gr v a
        end).
Proof.
  intros Hv Hi. unfold setitem.
  replace ((0 <=? v) && (v <=? 255))%Z with true
    by (symmetry; apply andb_true_iff; split; apply Z.leb_le; lia).
  destruct i as [|[|[|i]]]; try reflexivity. lia.
Qed.

(** Lines 103-107 on an object that stands for [q]: no exception, the
    object still stands for [q], and the channels read on lines 108-110
    are those of [blend q]. *)
Lemma substitute_background_represents (p : pixel) (q : Z * Z * Z * Z) :
  represents p q ->
  exists p',
    substitute_background g p = Ok p'
    /\ represents p' q
    /\ (IZR (getitem p' 0 * getitem p 3) / 255)%R
       = red_part (blend (backgroundFrameColor g) q)
    /\ (IZR (getitem p' 1 * getitem p 3) / 255)%R
       = green_part (blend (backgroundFrameColor g) q)
    /\ (IZR (getitem p' 2 * getitem p 3) / 255)%R
       = blue_part (blend (backgroundFrameColor g) q).
Proof.
  destruct q as [[[r gr] bl] a]. intros (Ha & Hc & Ht).
  unfold substitute_background, blend. rewrite Ha.
  destruct (backgroundFrameColor g) as [[br bgr] bbl] eqn:Ebg.
  unfold color_ok in background_ok.
  destruct background_ok as (Br & Bg & Bb).
  destruct (Z.ltb_spec a 1) as [Lt|Ge].
  - specialize (Hc Lt). destruct p as [? ? ? ?|pr pg pb pa];
      [contradiction|].
    unfold getitem in Ha. simpl in Ha. subst pa. simpl tuple3_get.
    rewrite setitem_Color by (try assumption; lia). cbn [bind].
    rewrite setitem_Color by (try assumption; lia). cbn [bind].
    rewrite setitem_Color by (try assumption; lia).
    eexists. split; [reflexivity|].
    split.
    + simpl. split; [reflexivity|]. split; [intros _; exact I|]. lia.
    + unfold red_part, green_part, blue_part, weighted. simpl.
      rewrite !mult_IZR. repeat split; reflexivity.
  - specialize (Ht Ge). exists p. split; [reflexivity|].
    split.
    + simpl. split; [exact Ha|]. split; [intros; lia|]. intros _. exact Ht.
    + unfold red_part, green_part, blue_part, weighted, getitem.
      rewrite Ht. simpl. rewrite !mult_IZR. repeat split; reflexivity.
Qed.

(** One iteration, in terms of pixel values. *)
Lemma visit_represents (st : locals) (q : Z * Z * Z * Z) (pt : R * R) :
  represents (lastGoodPixel st) q ->
  let q' :=
    if inside b pt then pixel_under (img g) pt else q in
  exists st',
    visit self g st pt = Ok st'
    /\ represents (lastGoodPixel st') q'
    /\ redValue st'
       = (redValue st + red_part (blend (backgroundFrameColor g) q'))%R
    /\ greenValue st'
       = (greenValue st + green_part (blend (backgroundFrameColor g) q'))%R
    /\ blueValue st'
       = (blueValue st + blue_part (blend (backgroundFrameColor g) q'))%R.
Proof.
  intros Hrep q'.
  assert (Hp : exists p,
             (if inside b pt
              then get_at (img g) (py_int (fst pt), py_int (snd pt))
              else Ok (lastGoodPixel st)) = Ok p
             /\ represents p q').
  { subst q'. destruct (inside b pt) eqn:Hin.
    - destruct (get_at_inside pt Hin) as (r & gr & bl & a & Eq & Eg).
      rewrite Eg, Eq. eexists. split; [reflexivity|].
      simpl. split; [reflexivity|]. split; [intros _; exact I|].
      intros _. reflexivity.
    - exists (lastGoodPixel st). split; [reflexivity|exact Hrep]. }
  destruct Hp as (p & Ep & Hrep').
  destruct (substitute_background_represents p q' Hrep')
    as (p' & Es & Hrep'' & Er & Eg & Eb).
  unfold visit.
  rewrite (in_bounds_inside self _ (fst pt) (snd pt) bound_set).
  replace (fst pt, snd pt) with pt by (destruct pt; reflexivity).
  cbn [bind]. rewrite Ep. cbn [bind]. rewrite Es. cbn [bind].
  eexists. split; [reflexivity|]. simpl.
  rewrite Er, Eg, Eb. repeat split. exact Hrep''.
Qed.

(** The whole traversal, in terms of pixel values. *)
Lemma foldM_visit_taken (pts : list (R * R)) :
  forall (st : locals) (q : Z * Z * Z * Z),
    represents (lastGoodPixel st) q ->
    let pixels :=
      map (blend (backgroundFrameColor g))
          (taken_pixels b (img g) q pts) in
    exists st',
      foldM (visit self g) pts st = Ok st'
      /\ redValue st' = fold_left Rplus (map red_part pixels) (redValue st)
      /\ greenValue st'
         = fold_left Rplus (map green_part pixels) (greenValue st)
      /\ blueValue st'
         = fold_left Rplus (map blue_part pixels) (blueValue st).
Proof.
  induction pts as [|pt pts IH]; intros st q Hrep; simpl.
  - exists st. repeat split.
  - destruct (visit_represents st q pt Hrep)
      as (st1 & Ev & Hrep1 & Er & Eg & Eb).
    rewrite Ev. cbn [bind].
    destruct (IH st1 _ Hrep1) as (st' & Ef & Fr & Fg & Fb).
    exists st'. split; [exact Ef|].
    rewrite Fr, Fg, Fb, Er, Eg, Eb. repeat split.
Qed.

Lemma initial_locals_represents :
  represents (lastGoodPixel (initial_locals g))
             (opaque_background (backgroundFrameColor g)).
Proof.
  clear background_ok.
  unfold initial_locals, opaque_background. simpl.
  destruct (backgroundFrameColor g) as [[br bgr] bbl]. simpl.
  split; [reflexivity|]. split; [intros; lia|]. intros _. reflexivity.
Qed.

(** [getLedColor] returns the colour of the specification, provided the
    divisor attribute holds the product of the two counts and is not 0. *)
Lemma getLedColor_sampleColor_spec (angle radius : R) :
  numberOfAveragedPixels self
  = (angleAveragePoints self * rAveragePoints self)%Z ->
  numberOfAveragedPixels self <> 0%Z ->
  getLedColor self g angle radius
  = Ok (sampleColor_spec self b g angle radius).
Proof.
  intros Hn Hnz. unfold getLedColor.
  rewrite (getLedColorArea_footprint self _ angle radius bound_set).
  cbn [bind]. rewrite foldM_concat.
  destruct (foldM_visit_taken
              (concat (footprint self b angle radius))
              (initial_locals g) _ initial_locals_represents)
    as (st & Ef & Fr & Fg & Fb).
  rewrite Ef. cbn [bind].
  unfold truediv. destruct (Z.eqb_spec (numberOfAveragedPixels self) 0)
    as [E|_]; [contradiction|].
  cbn [bind]. unfold sampleColor_spec, Rsum.
  rewrite Fr, Fg, Fb, Hn. reflexivity.
Qed.

(** The object left in [lastGoodPixel] by a traversal prefix stands for
    the pixel under the last in-bounds point of the prefix. *)
Lemma foldM_visit_last (pts : list (R * R)) :
  forall (st : locals) (q : Z * Z * Z * Z),
    represents (lastGoodPixel st) q ->
    exists st',
      foldM (visit self g) pts st = Ok st'
      /\ represents (lastGoodPixel st')
                    (match last_inside b pts with
                     | Some seen => pixel_under (img g) seen
                     | None => q
                     end).
Proof.
  induction pts as [|pt pts IH]; intros st q Hrep.
  - exists st. split; [reflexivity|exact Hrep].
  - destruct (visit_represents st q pt Hrep) as (st1 & Ev & Hrep1 & _).
    destruct (IH st1 _ Hrep1) as (st' & Ef & Hrep').
    exists st'. split.
    + simpl. rewrite Ev. exact Ef.
    + simpl. destruct (last_inside b pts) as [seen|]; [exact Hrep'|].
      destruct (inside b pt); exact Hrep'.
Qed.

End Traversal.

(** ** The sampled colour *)

Lemma odd_nonzero (n : Z) : Z.odd n = true -> n <> 0%Z.
Proof. intros H E. subst n. discriminate H. Qed.

(** The divisor set by [__init__] is the product of the two odd counts, so
    the divisions of lines 112-114 never fail. *)
Lemma init_divisor (aspan : R) (ap : Z) (rspan : R) (rp : Z) (image : Surface) :
  let self := setImage (__init__ aspan ap rspan rp) image in
  numberOfAveragedPixels self
  = (angleAveragePoints self * rAveragePoints self)%Z
  /\ numberOfAveragedPixels self <> 0%Z.
Proof.
  intros self. split; [reflexivity|].
  destruct (init_points_odd aspan ap rspan rp) as [Oa Or].
  apply odd_nonzero in Oa. apply odd_nonzero in Or.
  change (numberOfAveragedPixels self)
    with (angleAveragePoints (__init__ aspan ap rspan rp)
          * rAveragePoints (__init__ aspan ap rspan rp))%Z.
  intros E. apply Z.mul_eq_0 in E. destruct E; contradiction.
Qed.

Lemma color_ok_WHITE : color_ok WHITE.
Proof. unfold color_ok, WHITE. lia. Qed.

(** [getLedColor] takes its bounds from the image given to [setImage] and
    its pixels from the module global [img]. *)
Lemma getLedColor_reads_global
    (aspan : R) (ap : Z) (rspan : R) (rp : Z) (image : Surface) (g : Globals)
    (angle radius : R) :
  (1 <= get_width image <= get_width (img g))%Z ->
  (1 <= get_height image <= get_height (img g))%Z ->
  color_ok (backgroundFrameColor g) ->
  let self := setImage (__init__ aspan ap rspan rp) image in
  getLedColor self g angle radius
  = Ok (sampleColor_spec self (get_rect image) g angle radius).
Proof.
  intros Hw Hh Hbg self.
  destruct (init_divisor aspan ap rspan rp image) as [Hn Hnz].
  apply getLedColor_sampleColor_spec; try assumption; simpl; try lia.
  reflexivity.
Qed.

(** The same, for the instance that the main program builds: [setImage]
    is given the module global [img] itself. *)
Lemma getLedColor_on_global
    (aspan : R) (ap : Z) (rspan : R) (rp : Z) (g : Globals)
    (angle radius : R) :
  (1 <= get_width (img g))%Z ->
  (1 <= get_height (img g))%Z ->
  color_ok (backgroundFrameColor g) ->
  getLedColor (setImage (__init__ aspan ap rspan rp) (img g)) g angle radius
  = Ok (sampleColor_spec (setImage (__init__ aspan ap rspan rp) (img g))
                         (get_rect (img g)) g angle radius).
Proof.
  intros Hw Hh Hbg.
  apply getLedColor_reads_global; try assumption; lia.
Qed.

(** C1: for every configuration, image of at least one pixel, background
    colour and query, [getLedColor] returns the colour obtained by visiting
    every footprint point in angle-major, radius-minor order, taking the
    pixel under it or the boundary substitute, giving it the background's
    red, green and blue when its alpha is below 1, accumulating
    channel * alpha / 255 per channel and dividing each sum by
    angleSamplePoints * radiusSamplePoints, whatever the alphas were. *)
Theorem getLedColor_plain_mean
    (angleAverageSpan : R) (angleAveragePoints0 : Z)
    (rAverageSpan : R) (rAveragePoints0 : Z) (g : Globals)
    (angle radius : R) :
  (1 <= get_width (img g))%Z ->
  (1 <= get_height (img g))%Z ->
  color_ok (backgroundFrameColor g) ->
  let self :=
    setImage (__init__ angleAverageSpan angleAveragePoints0
                       rAverageSpan rAveragePoints0) (img g) in
  getLedColor self g angle radius
  = Ok (sampleColor_spec self (get_rect (img g)) g angle radius).
Proof.
  intros Hw Hh Hbg self.
  apply getLedColor_reads_global; try assumption; lia.
Qed.

Lemma getLedColor_plain_mean_witness :
  getLedColor (setImage (__init__ 1 3 10 3) red_image)
              (run_globals red_image) 30 1
  = Ok (sampleColor_spec (setImage (__init__ 1 3 10 3) red_image)
                         (get_rect red_image) (run_globals red_image) 30 1).
Proof.
  apply (getLedColor_plain_mean 1 3 10 3 (run_globals red_image) 30 1).
  - simpl. lia.
  - simpl. lia.
  - exact color_ok_WHITE.
Defined.

(** The value of [getLedColor] does not depend on the attribute [img] of
    the instance. *)
Lemma getLedColor_self_img (self self' : ImageToLed) (g : Globals)
    (angle radius : R) :
  angleAverageResolution self = angleAverageResolution self' ->
  rAverageResolution self = rAverageResolution self' ->
  angleAveragePoints self = angleAveragePoints self' ->
  rAveragePoints self = rAveragePoints self' ->
  numberOfAveragedPixels self = numberOfAveragedPixels self' ->
  imgBound self = imgBound self' ->
  getLedColor self g angle radius = getLedColor self' g angle radius.
Proof.
  destruct self, self'. simpl. intros. subst. reflexivity.
Qed.

(** C10: [getLedColor] reads pixels from the module global [img]; the image
    given to [setImage] contributes its bounds only.  Two runs with the same
    configuration, globals and query, whose [setImage] images have the same
    width and height, give the same result whatever the pixels of those
    images are. *)
Theorem getLedColor_ignores_setImage_pixels
    (self : ImageToLed) (image1 image2 : Surface) (g : Globals)
    (angle radius : R) :
  get_width image1 = get_width image2 ->
  get_height image1 = get_height image2 ->
  getLedColor (setImage self image1) g angle radius
  = getLedColor (setImage self image2) g angle radius.
Proof.
  intros Hw Hh.
  apply getLedColor_self_img; try reflexivity.
  simpl. unfold get_rect. rewrite Hw, Hh. reflexivity.
Qed.

Lemma getLedColor_ignores_setImage_pixels_witness :
  getLedColor (setImage (__init__ 1 3 10 3) blank_image)
              (run_globals red_image) 30 1
  = getLedColor (setImage (__init__ 1 3 10 3) red_image)
                (run_globals red_image) 30 1.
Proof.
  apply (getLedColor_ignores_setImage_pixels
           (__init__ 1 3 10 3) blank_image red_image
           (run_globals red_image) 30 1); reflexivity.
Defined.

(** ** Totality *)

Lemma inside_iff (b : Rect) (x y : R) :
  inside b (x, y) = true
  <-> (-1 < x < IZR (width b) /\ -1 < y < IZR (height b))%R.
Proof.
  unfold inside. simpl. rewrite !andb_true_iff, !Rltb_true. tauto.
Qed.




(** ** Sums of contributions *)

Lemma fold_left_Rplus_const (l : list R) (c a : R) :
  (forall x, In x l -> x = c) ->
  fold_left Rplus l a = (a + INR (length l) * c)%R.
Proof.
  revert a. induction l as [|x xs IH]; intros a Hall.
  - simpl. lra.
  - cbn [fold_left]. rewrite IH by (intros y Hy; apply Hall; right; exact Hy).
    rewrite (Hall x) by (left; reflexivity).
    change (length (c :: xs)) with (S (length xs)). rewrite S_INR. lra.
Qed.

Lemma Rsum_const (l : list R) (c : R) :
  (forall x, In x l -> x = c) -> Rsum l = (INR (length l) * c)%R.
Proof.
  intros Hall. unfold Rsum. rewrite (fold_left_Rplus_const l c 0 Hall). lra.
Qed.

Lemma taken_pixels_length (b : Rect) (image : Surface) (pts : list (R * R)) :
  forall q, length (taken_pixels b image q pts) = length pts.
Proof.
  induction pts as [|pt pts IH]; intros q; simpl; [reflexivity|].
  rewrite IH. reflexivity.
Qed.

Lemma concat_footprint_length (self : ImageToLed) (b : Rect)
    (angle radius : R) :
  length (concat (footprint self b angle radius))
  = (Z.to_nat (angleAveragePoints self) * Z.to_nat (rAveragePoints self))%nat.
Proof.
  unfold footprint.
  rewrite <- (range_length (angleAveragePoints self)).
  induction (range (angleAveragePoints self)) as [|t ts IH];
    [reflexivity|].
  simpl. rewrite length_app, IH, length_map, range_length. reflexivity.
Qed.

(** ** A fully transparent image *)

Lemma taken_pixels_alpha_zero (b : Rect) (image : Surface)
    (pts : list (R * R)) :
  (forall x y, snd (pixel_at image x y) = 0%Z) ->
  (forall pt, In pt pts -> inside b pt = true) ->
  forall q q', In q' (taken_pixels b image q pts) -> snd q' = 0%Z.
Proof.
  intros Halpha. induction pts as [|pt pts IH]; intros Hin q q' Hq'.
  - destruct Hq'.
  - simpl in Hq'. rewrite (Hin pt) in Hq' by (left; reflexivity).
    destruct Hq' as [<-|Hq'].
    + apply Halpha.
    + apply (IH (fun p Hp => Hin p (or_intror Hp)) _ _ Hq').
Qed.

Lemma parts_alpha_zero (bg : Z * Z * Z) (q : Z * Z * Z * Z) :
  snd q = 0%Z ->
  red_part (blend bg q) = 0%R
  /\ green_part (blend bg q) = 0%R
  /\ blue_part (blend bg q) = 0%R.
Proof.
  destruct q as [[[r gr] bl] a]. destruct bg as [[br bgr] bbl].
  simpl. intros ->. simpl.
  unfold weighted. repeat split; lra.
Qed.

(** C4: on an image whose every pixel has alpha 0, a query whose footprint
    lies fully in bounds returns black, (0, 0, 0), and not the background
    colour, although [lastGoodPixel] starts as the background at full
    opacity. *)
Theorem transparent_image_samples_black
    (angleAverageSpan : R) (angleAveragePoints0 : Z)
    (rAverageSpan : R) (rAveragePoints0 : Z) (g : Globals)
    (angle radius : R) (grid : list (list (R * R))) :
  let self :=
    setImage (__init__ angleAverageSpan angleAveragePoints0
                       rAverageSpan rAveragePoints0) (img g) in
  (1 <= get_width (img g))%Z ->
  (1 <= get_height (img g))%Z ->
  color_ok (backgroundFrameColor g) ->
  (forall x y : Z, snd (pixel_at (img g) x y) = 0%Z) ->
  getLedColorArea self angle radius = Ok grid ->
  (forall row pt, In row grid -> In pt row ->
                  in_bounds self (fst pt) (snd pt) = Ok true) ->
  getLedColor self g angle radius = Ok (0%R, 0%R, 0%R).
Proof.
  intros self Hw Hh Hbg Halpha Hgrid Hin.
  unfold self.
  rewrite (getLedColor_on_global angleAverageSpan angleAveragePoints0
             rAverageSpan rAveragePoints0 g angle radius Hw Hh Hbg).
  fold self.
  assert (Eg : grid = footprint self (get_rect (img g)) angle radius).
  { rewrite (getLedColorArea_footprint self (get_rect (img g)) angle radius
               eq_refl) in Hgrid.
    inversion Hgrid. reflexivity. }
  assert (Hall : forall pt,
             In pt (concat (footprint self (get_rect (img g)) angle radius))
             -> inside (get_rect (img g)) pt = true).
  { intros pt Hpt. apply in_concat in Hpt. destruct Hpt as (row & Hrow & Hpt).
    rewrite <- Eg in Hrow. specialize (Hin row pt Hrow Hpt).
    rewrite (in_bounds_inside self (get_rect (img g)) _ _ eq_refl) in Hin.
    destruct pt. simpl in Hin. inversion Hin. reflexivity. }
  assert (Hzero : forall q,
             In q (map (blend (backgroundFrameColor g))
                       (taken_pixels (get_rect (img g)) (img g)
                          (opaque_background (backgroundFrameColor g))
                          (concat (footprint self (get_rect (img g))
                                             angle radius)))) ->
             red_part q = 0%R /\ green_part q = 0%R /\ blue_part q = 0%R).
  { intros q Hq. apply in_map_iff in Hq. destruct Hq as (q0 & <- & Hq0).
    apply parts_alpha_zero.
    exact (taken_pixels_alpha_zero _ _ _ Halpha Hall _ _ Hq0). }
  unfold sampleColor_spec.
  rewrite (Rsum_const _ 0), (Rsum_const _ 0), (Rsum_const _ 0).
  - f_equal. f_equal; [f_equal|]; unfold Rdiv; ring.
  - intros x Hx. apply in_map_iff in Hx. destruct Hx as (q & <- & Hq).
    apply (Hzero q Hq).
  - intros x Hx. apply in_map_iff in Hx. destruct Hx as (q & <- & Hq).
    apply (Hzero q Hq).
  - intros x Hx. apply in_map_iff in Hx. destruct Hx as (q & <- & Hq).
    apply (Hzero q Hq).
Qed.

Lemma transparent_image_samples_black_witness :
  getLedColor (setImage (__init__ 1 1 10 1) blank_image)
              (run_globals blank_image) 0 0
  = Ok (0%R, 0%R, 0%R).
Proof.
  apply (transparent_image_samples_black
           1 1 10 1 (run_globals blank_image) 0 0
           (footprint (setImage (__init__ 1 1 10 1) blank_image)
                      (get_rect blank_image) 0 0)).
  - simpl. lia.
  - simpl. lia.
  - exact color_ok_WHITE.
  - intros x y. reflexivity.
  - apply getLedColorArea_footprint. reflexivity.
  - intros row pt Hrow Hpt.
    destruct Hrow as [<-|[]]. destruct Hpt as [<-|[]].
    rewrite (in_bounds_inside (setImage (__init__ 1 1 10 1) blank_image)
               (get_rect blank_image) _ _ eq_refl).
    f_equal. apply inside_iff.
    unfold footprint_cell, sampleRadius, sampleAngle, centerx, centery.
    simpl. change (3 / 2)%Z with 1%Z. lra.
Defined.

(** ** A single opaque pixel *)

Lemma taken_pixels_constant (b : Rect) (image : Surface)
    (c : Z * Z * Z * Z) (pts : list (R * R)) :
  (forall x y, pixel_at image x y = c) ->
  forall q, In q (taken_pixels b image c pts) -> q = c.
Proof.
  intros Hc. induction pts as [|pt pts IH]; intros q Hq.
  - destruct Hq.
  - simpl in Hq. unfold pixel_under in Hq. rewrite Hc in Hq.
    destruct (inside b pt); destruct Hq as [<-|Hq];
      try reflexivity; apply IH; exact Hq.
Qed.

Lemma first_cell_concat {A : Type} (grid : list (list A)) (x : A) :
  cell grid 0 0 = Some x -> exists rest, concat grid = x :: rest.
Proof.
  unfold cell. simpl.
  destruct grid as [|row rows]; [discriminate|].
  destruct row as [|y ys]; [discriminate|].
  simpl. intros E. inversion E. subst. eexists. reflexivity.
Qed.

Lemma point_count (n m : Z) :
  (0 < Z.to_nat n * Z.to_nat m)%nat ->
  INR (Z.to_nat n * Z.to_nat m) = IZR (n * m) /\ IZR (n * m) <> 0%R.
Proof.
  intros Hpos.
  assert (Hn : (0 < n)%Z) by (destruct n; simpl in Hpos; lia).
  assert (Hm : (0 < m)%Z) by (destruct m; simpl in Hpos; lia).
  split.
  - rewrite INR_IZR_INZ. f_equal. rewrite Nat2Z.inj_mul.
    rewrite !Z2Nat.id by lia. reflexivity.
  - apply not_0_IZR. lia.
Qed.

(** C3, as the code has it: on a 1x1 fully opaque image, a query whose
    first footprint point in traversal order, cell (0, 0), passes the bounds
    test returns exactly the pixel's red, green and blue. *)
Theorem one_pixel_image_color
    (angleAverageSpan : R) (angleAveragePoints0 : Z)
    (rAverageSpan : R) (rAveragePoints0 : Z)
    (r gr bl : Z) (bg : Z * Z * Z) (angle radius : R)
    (grid : list (list (R * R))) (first : R * R) :
  let image := one_pixel r gr bl in
  let g := {| img := image; backgroundFrameColor := bg |} in
  let self :=
    setImage (__init__ angleAverageSpan angleAveragePoints0
                       rAverageSpan rAveragePoints0) image in
  color_ok bg ->
  getLedColorArea self angle radius = Ok grid ->
  cell grid 0 0 = Some first ->
  in_bounds self (fst first) (snd first) = Ok true ->
  getLedColor self g angle radius = Ok (IZR r, IZR gr, IZR bl).
Proof.
  intros image g self Hbg Hgrid Hfirst Hin.
  assert (Hw : (1 <= get_width (img g))%Z) by (simpl; lia).
  assert (Hh : (1 <= get_height (img g))%Z) by (simpl; lia).
  change (getLedColor
            (setImage (__init__ angleAverageSpan angleAveragePoints0
                                rAverageSpan rAveragePoints0) (img g))
            g angle radius = Ok (IZR r, IZR gr, IZR bl)).
  rewrite (getLedColor_on_global angleAverageSpan angleAveragePoints0
             rAverageSpan rAveragePoints0 g angle radius Hw Hh Hbg).
  change (setImage (__init__ angleAverageSpan angleAveragePoints0
                             rAverageSpan rAveragePoints0) (img g))
    with self.
  change (get_rect (img g)) with (get_rect image).
  rewrite (getLedColorArea_footprint self (get_rect image) angle radius
             eq_refl) in Hgrid.
  inversion Hgrid as [Eg]. clear Hgrid.
  rewrite <- Eg in Hfirst.
  destruct (first_cell_concat _ _ Hfirst) as (rest & Econcat).
  rewrite (in_bounds_inside self (get_rect image) _ _ eq_refl) in Hin.
  assert (Hin' : inside (get_rect image) first = true).
  { destruct first. simpl in Hin. inversion Hin. reflexivity. }
  pose proof (concat_footprint_length self (get_rect image) angle radius)
    as Hlen.
  assert (Hpos : (0 < Z.to_nat (angleAveragePoints self)
                      * Z.to_nat (rAveragePoints self))%nat).
  { rewrite <- Hlen, Econcat. simpl. lia. }
  destruct (point_count _ _ Hpos) as [Hcount Hnz].
  assert (Hall : forall q,
             In q (map (blend bg)
                       (taken_pixels (get_rect image) image
                          (opaque_background bg)
                          (concat (footprint self (get_rect image)
                                             angle radius)))) ->
             q = (r, gr, bl, 255%Z)).
  { intros q Hq. apply in_map_iff in Hq. destruct Hq as (q0 & <- & Hq0).
    assert (E0 : q0 = (r, gr, bl, 255%Z)).
    { rewrite Econcat in Hq0. simpl in Hq0. rewrite Hin' in Hq0.
      destruct Hq0 as [<-|Hq0]; [reflexivity|].
      apply (taken_pixels_constant (get_rect image) image _ rest);
        [reflexivity|exact Hq0]. }
    rewrite E0. destruct bg as [[br bgr] bbl]. reflexivity. }
  unfold sampleColor_spec. simpl backgroundFrameColor. simpl img.
  rewrite (Rsum_const _ (IZR r)), (Rsum_const _ (IZR gr)),
    (Rsum_const _ (IZR bl)).
  - rewrite !length_map, taken_pixels_length, Hlen, Hcount.
    f_equal. f_equal; [f_equal|]; field; exact Hnz.
  - intros x Hx. apply in_map_iff in Hx. destruct Hx as (q & <- & Hq).
    rewrite (Hall q Hq). unfold blue_part, weighted. field.
  - intros x Hx. apply in_map_iff in Hx. destruct Hx as (q & <- & Hq).
    rewrite (Hall q Hq). unfold green_part, weighted. field.
  - intros x Hx. apply in_map_iff in Hx. destruct Hx as (q & <- & Hq).
    rewrite (Hall q Hq). unfold red_part, weighted. field.
Qed.

Lemma one_pixel_image_color_witness :
  getLedColor (setImage (__init__ 1 1 10 1) (one_pixel 10 20 30))
              {| img := one_pixel 10 20 30; backgroundFrameColor := WHITE |}
              90 1
  = Ok (10%R, 20%R, 30%R).
Proof.
  apply (one_pixel_image_color
           1 1 10 1 10 20 30 WHITE 90 1
           (footprint (setImage (__init__ 1 1 10 1) (one_pixel 10 20 30))
                      (get_rect (one_pixel 10 20 30)) 90 1)
           (footprint_cell (setImage (__init__ 1 1 10 1) (one_pixel 10 20 30))
                           (get_rect (one_pixel 10 20 30)) 90 1 0 0)).
  - exact color_ok_WHITE.
  - apply getLedColorArea_footprint. reflexivity.
  - reflexivity.
  - rewrite (in_bounds_inside
               (setImage (__init__ 1 1 10 1) (one_pixel 10 20 30))
               (get_rect (one_pixel 10 20 30)) _ _ eq_refl).
    f_equal. apply inside_iff.
    unfold footprint_cell, sampleRadius, sampleAngle, centerx, centery.
    simpl. change (1 / 2)%Z with 0%Z.
    replace (getAngleRads 90 + getAngleRads 0 * (0 - 0 / 2))%R
      with (PI / 2)%R by (unfold getAngleRads; field).
    rewrite cos_PI2, sin_PI2. lra.
Defined.

(** C3 as stated fails: with one sample point per axis, the query at
    radius 0 on a 1x1 opaque image falls on y = height, outside the image,
    before any pixel has been seen; the result is the background colour. *)
Lemma one_pixel_image_background_counterexample :
  getLedColor (setImage (__init__ 1 1 10 1) (one_pixel 10 20 30))
              (run_globals (one_pixel 10 20 30)) 0 0
  = Ok (255%R, 255%R, 255%R)
  /\ getLedColor (setImage (__init__ 1 1 10 1) (one_pixel 10 20 30))
                 (run_globals (one_pixel 10 20 30)) 0 0
     <> Ok (10%R, 20%R, 30%R).
Proof.
  assert (E : getLedColor (setImage (__init__ 1 1 10 1) (one_pixel 10 20 30))
                          (run_globals (one_pixel 10 20 30)) 0 0
              = Ok (255%R, 255%R, 255%R)).
  { etransitivity.
    { apply (getLedColor_on_global 1 1 10 1
               (run_globals (one_pixel 10 20 30)) 0 0);
        [simpl; lia | simpl; lia | exact color_ok_WHITE]. }
    unfold sampleColor_spec.
    change (concat (footprint
                      (setImage (__init__ 1 1 10 1)
                                (img (run_globals (one_pixel 10 20 30))))
                      (get_rect (img (run_globals (one_pixel 10 20 30))))
                      0 0))
      with [footprint_cell
              (setImage (__init__ 1 1 10 1) (one_pixel 10 20 30))
              (get_rect (one_pixel 10 20 30)) 0 0 0 0].
    assert (Hout : inside (get_rect (one_pixel 10 20 30))
                     (footprint_cell
                        (setImage (__init__ 1 1 10 1) (one_pixel 10 20 30))
                        (get_rect (one_pixel 10 20 30)) 0 0 0 0) = false).
    { apply not_true_is_false. intros H. apply inside_iff in H.
      unfold footprint_cell, sampleRadius, sampleAngle, centerx, centery in H.
      simpl in H. change (1 / 2)%Z with 0%Z in H. lra. }
    cbn [taken_pixels]. cbn [img run_globals]. rewrite Hout.
    unfold Rsum. simpl.
    unfold weighted. f_equal. f_equal; [f_equal|]; field. }
  split; [exact E|].
  rewrite E. intros H. inversion H as [[H1 H2 H3]]. lra.
Qed.

(** ** Boundary extension *)

(** C5: in one traversal of [getLedColor] (the nested loops run through
    the points [before], then [pt], then [after]), a footprint point [pt]
    whose truncated coordinates are outside the image raises nothing and
    contributes, per channel, what the most recent in-bounds pixel of the
    points visited before it contributes; when no earlier point was in
    bounds it contributes what the background colour at full opacity
    contributes. *)
Theorem out_of_bounds_reuses_last_good
    (angleAverageSpan : R) (angleAveragePoints0 : Z)
    (rAverageSpan : R) (rAveragePoints0 : Z) (g : Globals)
    (angle radius : R) (grid : list (list (R * R)))
    (before after : list (R * R)) (pt : R * R) :
  let self :=
    setImage (__init__ angleAverageSpan angleAveragePoints0
                       rAverageSpan rAveragePoints0) (img g) in
  let b := get_rect (img g) in
  (1 <= get_width (img g))%Z ->
  (1 <= get_height (img g))%Z ->
  color_ok (backgroundFrameColor g) ->
  getLedColorArea self angle radius = Ok grid ->
  concat grid = before ++ pt :: after ->
  truncated_inside b pt = false ->
  exists st st' : locals,
    foldM (visit self g) before (initial_locals g) = Ok st
    /\ visit self g st pt = Ok st'
    /\ foldM (fun st0 rr => foldM (visit self g) rr st0)
             grid (initial_locals g)
       = foldM (visit self g) after st'
    /\ redValue st'
       = (redValue st
          + red_part (blend (backgroundFrameColor g)
                            (substitute_after b g before)))%R
    /\ greenValue st'
       = (greenValue st
          + green_part (blend (backgroundFrameColor g)
                              (substitute_after b g before)))%R
    /\ blueValue st'
       = (blueValue st
          + blue_part (blend (backgroundFrameColor g)
                             (substitute_after b g before)))%R.
Proof.
  intros self b Hw Hh Hbg _ Hconcat Hout.
  assert (Hb : imgBound self = Some b) by reflexivity.
  rewrite <- (inside_truncated b pt Hw Hh) in Hout.
  destruct (foldM_visit_last self g b Hb Hw Hh (Z.le_refl _) (Z.le_refl _)
              Hbg before (initial_locals g) _
              (initial_locals_represents g))
    as (st & Ef & Hrep).
  destruct (visit_represents self g b Hb Hw Hh (Z.le_refl _) (Z.le_refl _)
              Hbg st _ pt Hrep)
    as (st' & Ev & _ & Er & Eg & Eb).
  rewrite Hout in Er, Eg, Eb.
  exists st, st'. unfold substitute_after.
  split; [exact Ef|]. split; [exact Ev|]. split.
  - rewrite foldM_concat, Hconcat, foldM_app, Ef. simpl. rewrite Ev.
    reflexivity.
  - repeat split; assumption.
Qed.

Lemma example_angle_zero :
  (getAngleRads 0 + getAngleRads 0 * (0 - 0 / 2))%R = 0%R.
Proof. unfold getAngleRads. field. Qed.

Lemma out_of_bounds_reuses_last_good_witness :
  let self := setImage (__init__ 1 1 10 3) red_image in
  let b := get_rect red_image in
  let g := run_globals red_image in
  let before := [footprint_cell self b 0 0 0 0; footprint_cell self b 0 0 0 1] in
  let pt := footprint_cell self b 0 0 0 2 in
  exists st st' : locals,
    foldM (visit self g) before (initial_locals g) = Ok st
    /\ visit self g st pt = Ok st'
    /\ foldM (fun st0 rr => foldM (visit self g) rr st0)
             (footprint self b 0 0) (initial_locals g)
       = foldM (visit self g) [] st'
    /\ redValue st'
       = (redValue st + red_part (blend WHITE (substitute_after b g before)))%R
    /\ greenValue st'
       = (greenValue st
          + green_part (blend WHITE (substitute_after b g before)))%R
    /\ blueValue st'
       = (blueValue st
          + blue_part (blend WHITE (substitute_after b g before)))%R.
Proof.
  intros self b g before pt.
  apply (out_of_bounds_reuses_last_good
           1 1 10 3 (run_globals red_image) 0 0
           (footprint self b 0 0) before [] pt).
  - simpl. lia.
  - simpl. lia.
  - exact color_ok_WHITE.
  - apply getLedColorArea_footprint. reflexivity.
  - reflexivity.
  - rewrite <- inside_truncated by (simpl; lia).
    apply not_true_is_false. intros H. apply inside_iff in H.
    unfold pt, footprint_cell, sampleRadius, sampleAngle, centerx, centery
      in H.
    simpl in H. change (3 / 2)%Z with 1%Z in H.
    rewrite example_angle_zero, cos_0, sin_0 in H. lra.
Defined.

(** ** The sweep *)

(** The [while] loop of [getLedColors], entered with [angle] equal to [k]
    increments and [m] iterations to go. *)
Lemma getLedColors_loop_runs (self : ImageToLed) (g : Globals)
    (angleIncrement radius : R) (color : R -> R * R * R) (n : nat) :
  (forall a, getLedColor self g a radius = Ok (color a)) ->
  (forall k, (k < n)%nat -> (INR k * angleIncrement < 360)%R) ->
  (360 <= INR n * angleIncrement)%R ->
  forall (m k fuel : nat) (angle : R) (ret : list (R * R * R)),
    (k + m = n)%nat ->
    (m < fuel)%nat ->
    angle = (INR k * angleIncrement)%R ->
    getLedColors_loop fuel self g angleIncrement radius angle ret
    = Some (Ok (ret ++ map (fun i => color (INR i * angleIncrement)%R)
                           (seq k m))).
Proof.
  intros Hcolor Hbelow Hreach.
  induction m as [|m IH]; intros k fuel angle ret Hk Hfuel Hangle.
  - destruct fuel as [|fuel]; [lia|]. simpl.
    replace k with n in Hangle by lia.
    rewrite (proj2 (Rltb_false angle 360)) by lra.
    rewrite app_nil_r. reflexivity.
  - destruct fuel as [|fuel]; [lia|]. cbn [getLedColors_loop].
    assert (Hlt : (angle < 360)%R)
      by (rewrite Hangle; apply Hbelow; lia).
    rewrite (proj2 (Rltb_true angle 360) Hlt).
    rewrite Hcolor.
    rewrite (IH (S k) fuel (angle + angleIncrement)%R (ret ++ [color angle]))
      by (try lia; rewrite Hangle, S_INR; ring).
    rewrite <- app_assoc. cbn [seq map app]. rewrite Hangle. reflexivity.
Qed.



(** With an increment that is not positive the loop of [getLedColors] makes
    no progress: no amount of fuel lets it return. *)
Lemma getLedColors_never_returns (self : ImageToLed) (g : Globals)
    (angleIncrement radius : R) (color : R -> R * R * R) :
  (forall a, getLedColor self g a radius = Ok (color a)) ->
  (angleIncrement <= 0)%R ->
  forall fuel, getLedColors fuel self g angleIncrement radius = None.
Proof.
  intros Hcolor Hinc fuel. unfold getLedColors.
  assert (Hloop : forall (angle : R) (ret : list (R * R * R)),
             (angle <= 0)%R ->
             getLedColors_loop fuel self g angleIncrement radius angle ret
             = None).
  { induction fuel as [|fuel IH]; intros angle ret Hangle.
    - reflexivity.
    - cbn [getLedColors_loop].
      rewrite (proj2 (Rltb_true angle 360)) by lra.
      rewrite Hcolor. apply IH. lra. }
  apply Hloop. lra.
Qed.

(** ** Bounds from one image, pixels from another

    The bounds test uses the image given to [setImage], the look-up uses the
    module global [img].  When the global image is the smaller one the
    look-up of line 97 can fail. *)

Lemma py_int_IZR (z : Z) : py_int (IZR z) = z.
Proof.
  destruct (Rle_dec 0 (IZR z)) as [Hz|Hz].
  - rewrite py_int_nonneg by exact Hz.
    destruct (Int_part_bounds (IZR z)) as [H1 H2].
    apply le_IZR in H1. rewrite <- plus_IZR in H2. apply lt_IZR in H2. lia.
  - rewrite py_int_neg by lra. rewrite <- opp_IZR.
    destruct (Int_part_bounds (IZR (- z))) as [H1 H2].
    apply le_IZR in H1. rewrite <- plus_IZR in H2. apply lt_IZR in H2. lia.
Qed.

Lemma getLedColor_smaller_global_raises :
  getLedColor (setImage (__init__ 1 1 10 1) blank_image)
              (run_globals (one_pixel 10 20 30)) 0 0
  = Raise IndexError.
Proof.
  unfold getLedColor.
  rewrite (getLedColorArea_footprint
             (setImage (__init__ 1 1 10 1) blank_image)
             (get_rect blank_image) 0 0 eq_refl).
  assert (Ept : footprint_cell (setImage (__init__ 1 1 10 1) blank_image)
                               (get_rect blank_image) 0 0 0 0
                = (IZR 1, IZR 2)).
  { unfold footprint_cell, sampleRadius, sampleAngle, centerx, centery.
    simpl. change (3 / 2)%Z with 1%Z. f_equal; ring. }
  change (footprint (setImage (__init__ 1 1 10 1) blank_image)
                    (get_rect blank_image) 0 0)
    with [[footprint_cell (setImage (__init__ 1 1 10 1) blank_image)
                          (get_rect blank_image) 0 0 0 0]].
  rewrite Ept. cbn [bind foldM]. unfold visit. cbn [fst snd].
  rewrite (in_bounds_inside (setImage (__init__ 1 1 10 1) blank_image)
             (get_rect blank_image) _ _ eq_refl).
  replace (inside (get_rect blank_image) (IZR 1, IZR 2)) with true
    by (symmetry; apply inside_iff; simpl; lra).
  cbn [bind]. rewrite !py_int_IZR. reflexivity.
Qed.

(** * Further properties of the sampler *)

(** ** The range of a sampled colour *)

Lemma taken_pixels_ok (b : Rect) (image : Surface) (pts : list (R * R)) :
  (forall x y, pixel_ok (pixel_at image x y)) ->
  forall q0, pixel_ok q0 ->
  forall q, In q (taken_pixels b image q0 pts) -> pixel_ok q.
Proof.
  intros Himg. induction pts as [|pt pts IH]; intros q0 Hq0 q Hq.
  - destruct Hq.
  - simpl in Hq.
    assert (Hnext : pixel_ok (if inside b pt
                              then pixel_under image pt else q0)).
    { destruct (inside b pt); [apply Himg|exact Hq0]. }
    destruct Hq as [<-|Hq]; [exact Hnext|].
    exact (IH _ Hnext q Hq).
Qed.

Lemma weighted_range (c a : Z) :
  (0 <= c <= 255)%Z -> (0 <= a <= 255)%Z -> (0 <= weighted c a <= 255)%R.
Proof.
  intros [Hc1 Hc2] [Ha1 Ha2]. unfold weighted.
  apply IZR_le in Hc1, Hc2, Ha1, Ha2.
  split.
  - apply Rmult_le_pos; [apply Rmult_le_pos; assumption|lra].
  - assert (H : (IZR c * IZR a <= 255 * 255)%R)
      by (apply Rmult_le_compat; assumption).
    lra.
Qed.

Lemma blend_parts_range (bg : Z * Z * Z) (q : Z * Z * Z * Z) :
  color_ok bg -> pixel_ok q ->
  (0 <= red_part (blend bg q) <= 255)%R
  /\ (0 <= green_part (blend bg q) <= 255)%R
  /\ (0 <= blue_part (blend bg q) <= 255)%R.
Proof.
  destruct bg as [[br bgr] bbl]. destruct q as [[[r gr] bl] a].
  intros (Br & Bg & Bb) (Hr & Hg & Hb & Ha).
  unfold blend. destruct (a <? 1)%Z; simpl;
    repeat split; apply weighted_range; assumption.
Qed.

Lemma fold_left_Rplus_range (l : list R) (a : R) :
  (forall x, In x l -> (0 <= x <= 255)%R) ->
  (a <= fold_left Rplus l a <= a + INR (length l) * 255)%R.
Proof.
  revert a. induction l as [|x xs IH]; intros a Hall.
  - simpl. lra.
  - cbn [fold_left].
    specialize (IH (a + x)%R (fun y Hy => Hall y (or_intror Hy))).
    specialize (Hall x (or_introl eq_refl)).
    change (length (x :: xs)) with (S (length xs)). rewrite S_INR. lra.
Qed.

Lemma mean_range (l : list R) (n m : Z) :
  (forall x, In x l -> (0 <= x <= 255)%R) ->
  length l = (Z.to_nat n * Z.to_nat m)%nat ->
  (0 <= Rsum l / IZR (n * m) <= 255)%R.
Proof.
  intros Hall Hlen.
  destruct (fold_left_Rplus_range l 0 Hall) as [Lo Hi].
  fold (Rsum l) in Lo, Hi.
  destruct (Nat.eq_dec (Z.to_nat n * Z.to_nat m) 0) as [E|E].
  - rewrite Hlen, E in Hi. simpl in Hi.
    replace (Rsum l) with 0%R by lra. unfold Rdiv. rewrite Rmult_0_l. lra.
  - destruct (point_count n m) as [Hcount Hnz]; [lia|].
    rewrite Hlen, Hcount in Hi.
    assert (Hpos : (0 < IZR (n * m))%R).
    { rewrite <- Hcount. apply lt_0_INR. lia. }
    split.
    + apply Rmult_le_pos; [exact Lo|].
      apply Rlt_le, Rinv_0_lt_compat, Hpos.
    + apply (Rmult_le_reg_r (IZR (n * m))); [exact Hpos|].
      unfold Rdiv. rewrite Rmult_assoc, Rinv_l by exact Hnz. lra.
Qed.

(** X1: when every channel of the image and of the background is in
    0..255, every channel of the colour that [getLedColor] returns is
    between 0 and 255, whatever the configuration and the query. *)
Theorem getLedColor_channels_in_range
    (angleAverageSpan : R) (angleAveragePoints0 : Z)
    (rAverageSpan : R) (rAveragePoints0 : Z) (g : Globals)
    (queryAngle radius : R) :
  let self :=
    setImage (__init__ angleAverageSpan angleAveragePoints0
                       rAverageSpan rAveragePoints0) (img g) in
  (1 <= get_width (img g))%Z ->
  (1 <= get_height (img g))%Z ->
  color_ok (backgroundFrameColor g) ->
  (forall x y : Z, pixel_ok (pixel_at (img g) x y)) ->
  exists red green blue : R,
    getLedColor self g queryAngle radius = Ok (red, green, blue)
    /\ (0 <= red <= 255)%R
    /\ (0 <= green <= 255)%R
    /\ (0 <= blue <= 255)%R.
Proof.
  intros self Hw Hh Hbg Himg.
  pose (pixels :=
          map (blend (backgroundFrameColor g))
              (taken_pixels (get_rect (img g)) (img g)
                 (opaque_background (backgroundFrameColor g))
                 (concat (footprint self (get_rect (img g))
                                    queryAngle radius)))).
  assert (Hstart : pixel_ok (opaque_background (backgroundFrameColor g))).
  { unfold color_ok in Hbg. unfold opaque_background.
    destruct (backgroundFrameColor g) as [[br bgr] bbl]. simpl. lia. }
  assert (Hparts : forall q, In q pixels ->
             (0 <= red_part q <= 255)%R
             /\ (0 <= green_part q <= 255)%R
             /\ (0 <= blue_part q <= 255)%R).
  { intros q Hq. apply in_map_iff in Hq. destruct Hq as (q0 & <- & Hq0).
    apply blend_parts_range; [exact Hbg|].
    exact (taken_pixels_ok _ _ _ Himg _ Hstart _ Hq0). }
  assert (Hlen : length pixels
                 = (Z.to_nat (angleAveragePoints self)
                    * Z.to_nat (rAveragePoints self))%nat).
  { unfold pixels. rewrite length_map, taken_pixels_length.
    apply concat_footprint_length. }
  exists (Rsum (map red_part pixels)
          / IZR (angleAveragePoints self * rAveragePoints self))%R,
         (Rsum (map green_part pixels)
          / IZR (angleAveragePoints self * rAveragePoints self))%R,
         (Rsum (map blue_part pixels)
          / IZR (angleAveragePoints self * rAveragePoints self))%R.
  split.
  - apply getLedColor_on_global; assumption.
  - repeat split.
    all: apply mean_range; [|rewrite length_map; exact Hlen].
    all: intros x Hx; apply in_map_iff in Hx;
      destruct Hx as (q & <- & Hq); apply (Hparts q Hq).
Qed.

Lemma getLedColor_channels_in_range_witness :
  exists red green blue : R,
    getLedColor (setImage (__init__ 1 3 10 3) red_image)
                (run_globals red_image) 30 1 = Ok (red, green, blue)
    /\ (0 <= red <= 255)%R
    /\ (0 <= green <= 255)%R
    /\ (0 <= blue <= 255)%R.
Proof.
  apply (getLedColor_channels_in_range 1 3 10 3 (run_globals red_image) 30 1).
  - simpl. lia.
  - simpl. lia.
  - exact color_ok_WHITE.
  - intros x y. simpl. lia.
Defined.

(** ** A full turn *)







(** ** Before [setImage] *)

Lemma range_first (n : Z) :
  (1 <= n)%Z -> exists rest, range n = 0%Z :: rest.
Proof.
  intros Hn. unfold range.
  destruct (Z.to_nat n) as [|k] eqn:E; [lia|].
  simpl. eexists. reflexivity.
Qed.

Lemma range_empty (n : Z) : (n <= 0)%Z -> range n = [].
Proof.
  intros Hn. unfold range.
  replace (Z.to_nat n) with 0%nat by lia. reflexivity.
Qed.

Lemma init_points_positive (aspan : R) (ap : Z) (rspan : R) (rp : Z) :
  ((0 <= ap)%Z -> (1 <= angleAveragePoints (__init__ aspan ap rspan rp))%Z)
  /\ ((0 <= rp)%Z -> (1 <= rAveragePoints (__init__ aspan ap rspan rp))%Z)
  /\ ((ap < 0)%Z -> (angleAveragePoints (__init__ aspan ap rspan rp) <= 0)%Z)
  /\ ((rp < 0)%Z -> (rAveragePoints (__init__ aspan ap rspan rp) <= 0)%Z).
Proof.
  simpl.
  destruct (Z.eqb_spec (ap mod 2) 0) as [E1|E1];
    destruct (Z.eqb_spec (rp mod 2) 0) as [E2|E2];
    repeat split; intros H; try lia.
  all: try (assert (ap <> 0%Z) by (intros ->; apply E1; reflexivity); lia).
  all: try (assert (rp <> 0%Z) by (intros ->; apply E2; reflexivity); lia).
  all: try (assert (ap <> (-1)%Z) by (intros ->; discriminate E1); lia).
  all: try (assert (rp <> (-1)%Z) by (intros ->; discriminate E2); lia).
Qed.

(** X3: on an instance that [setImage] has not been called on, built with
    non-negative point counts, [getLedColorArea] and [getLedColor] raise
    [AttributeError], and so does the sweep as soon as it has fuel for one
    iteration. *)
Theorem sampling_before_setImage
    (angleAverageSpan : R) (angleAveragePoints0 : Z)
    (rAverageSpan : R) (rAveragePoints0 : Z) (g : Globals)
    (queryAngle radius increment : R) (fuel : nat) :
  let self := __init__ angleAverageSpan angleAveragePoints0
                       rAverageSpan rAveragePoints0 in
  (0 <= angleAveragePoints0)%Z ->
  (0 <= rAveragePoints0)%Z ->
  getLedColorArea self queryAngle radius = Raise AttributeError
  /\ getLedColor self g queryAngle radius = Raise AttributeError
  /\ getLedColors (S fuel) self g increment radius
     = Some (Raise AttributeError).
Proof.
  intros self Ha Hr.
  destruct (init_points_positive angleAverageSpan angleAveragePoints0
              rAverageSpan rAveragePoints0) as (Pa & Pr & _ & _).
  specialize (Pa Ha). specialize (Pr Hr).
  fold self in Pa, Pr.
  assert (Harea : forall a, getLedColorArea self a radius
                            = Raise AttributeError).
  { intros a. unfold getLedColorArea.
    destruct (range_first _ Pa) as (ts & ->).
    destruct (range_first _ Pr) as (rs & ->).
    reflexivity. }
  assert (Hcolor : forall a, getLedColor self g a radius
                             = Raise AttributeError).
  { intros a. unfold getLedColor. rewrite Harea. reflexivity. }
  split; [apply Harea|]. split; [apply Hcolor|].
  unfold getLedColors. cbn [getLedColors_loop].
  rewrite (proj2 (Rltb_true 0 360)) by lra.
  rewrite Hcolor. reflexivity.
Qed.

Lemma sampling_before_setImage_witness :
  getLedColorArea (__init__ 1 3 10 3) 0 15 = Raise AttributeError
  /\ getLedColor (__init__ 1 3 10 3) (run_globals red_image) 0 15
     = Raise AttributeError
  /\ getLedColors 1 (__init__ 1 3 10 3) (run_globals red_image) 1 15
     = Some (Raise AttributeError).
Proof.
  apply (sampling_before_setImage 1 3 10 3 (run_globals red_image)
                                  0 15 1 0);
    lia.
Defined.

(** ** The extent of the footprint *)

Lemma init_steps (aspan : R) (ap : Z) (rspan : R) (rp : Z) (image : Surface) :
  let self := setImage (__init__ aspan ap rspan rp) image in
  ((1 < angleAveragePoints self)%Z ->
   angleAverageResolution self
   = getAngleRads (aspan / IZR (angleAveragePoints self - 1)))
  /\ ((1 < rAveragePoints self)%Z ->
      rAverageResolution self = (rspan / IZR (rAveragePoints self - 1))%R).
Proof.
  simpl. split; intros H; apply Z.ltb_lt in H; rewrite H; reflexivity.
Qed.

Lemma span_ends (centre step span : R) (n : Z) :
  (1 < n)%Z ->
  step = (span / IZR (n - 1))%R ->
  (centre + step * (IZR 0 - IZR (n - 1) / 2))%R = (centre - span / 2)%R
  /\ (centre + step * (IZR (n - 1) - IZR (n - 1) / 2))%R
     = (centre + span / 2)%R.
Proof.
  intros Hn ->.
  assert (Hnz : IZR (n - 1) <> 0%R) by (apply not_0_IZR; lia).
  split; field; exact Hnz.
Qed.

(** X4: with more than one point on each axis, the four corner cells of
    the footprint are the projections of the query displaced by half the
    angle span and half the radius span on either side: the neighbourhood
    covers [angleAverageSpan] degrees and [rAverageSpan] pixels in total,
    centred on the query. *)
Theorem footprint_extent
    (angleAverageSpan : R) (angleAveragePoints0 : Z)
    (rAverageSpan : R) (rAveragePoints0 : Z) (image : Surface)
    (queryAngle radius : R) :
  let self :=
    setImage (__init__ angleAverageSpan angleAveragePoints0
                       rAverageSpan rAveragePoints0) image in
  let b := get_rect image in
  let n := angleAveragePoints self in
  let m := rAveragePoints self in
  (1 < n)%Z ->
  (1 < m)%Z ->
  exists grid : list (list (R * R)),
    getLedColorArea self queryAngle radius = Ok grid
    /\ cell grid 0 0
       = Some (projection b (queryAngle - angleAverageSpan / 2)
                            (radius - rAverageSpan / 2))
    /\ cell grid 0 (m - 1)
       = Some (projection b (queryAngle - angleAverageSpan / 2)
                            (radius + rAverageSpan / 2))
    /\ cell grid (n - 1) (m - 1)
       = Some (projection b (queryAngle + angleAverageSpan / 2)
                            (radius + rAverageSpan / 2))
    /\ cell grid (n - 1) 0
       = Some (projection b (queryAngle + angleAverageSpan / 2)
                            (radius - rAverageSpan / 2)).
Proof.
  intros self b n m Hn Hm.
  destruct (init_steps angleAverageSpan angleAveragePoints0
              rAverageSpan rAveragePoints0 image) as [Sa Sr].
  fold self in Sa, Sr. fold n in Sa. fold m in Sr.
  specialize (Sa Hn). specialize (Sr Hm).
  assert (Ha : sampleAngle self queryAngle 0
               = getAngleRads (queryAngle - angleAverageSpan / 2)
               /\ sampleAngle self queryAngle (n - 1)
                  = getAngleRads (queryAngle + angleAverageSpan / 2)).
  { unfold sampleAngle. fold n. rewrite Sa.
    assert (Hnz : IZR (n - 1) <> 0%R) by (apply not_0_IZR; lia).
    unfold getAngleRads. split; field; exact Hnz. }
  destruct (span_ends radius (rAverageResolution self) rAverageSpan m Hm Sr)
    as [R0 R1].
  destruct Ha as [A0 A1].
  assert (Hcell : forall t r ta ra,
             sampleAngle self queryAngle t = getAngleRads ta ->
             sampleRadius self radius r = ra ->
             footprint_cell self b queryAngle radius t r
             = projection b ta ra).
  { intros t r ta ra Et Er. unfold footprint_cell, projection.
    rewrite Et, Er. reflexivity. }
  exists (footprint self b queryAngle radius).
  split; [apply getLedColorArea_footprint; reflexivity|].
  repeat split.
  all: rewrite footprint_cell_at by (fold n; fold m; lia).
  all: f_equal; apply Hcell; assumption.
Qed.

Lemma footprint_extent_witness :
  let self := setImage (__init__ 1 3 10 3) blank_image in
  let b := get_rect blank_image in
  exists grid : list (list (R * R)),
    getLedColorArea self 45 20 = Ok grid
    /\ cell grid 0 0 = Some (projection b (45 - 1 / 2) (20 - 10 / 2))
    /\ cell grid 0 (3 - 1) = Some (projection b (45 - 1 / 2) (20 + 10 / 2))
    /\ cell grid (3 - 1) (3 - 1)
       = Some (projection b (45 + 1 / 2) (20 + 10 / 2))
    /\ cell grid (3 - 1) 0 = Some (projection b (45 + 1 / 2) (20 - 10 / 2)).
Proof.
  intros self b.
  apply (footprint_extent 1 3 10 3 blank_image 45 20); simpl; lia.
Defined.

(** ** A sweep that cannot advance *)

(** X5: with an increment that is zero or negative the loop of
    [getLedColors] never leaves the range below 360: whatever the fuel, the
    call does not return. *)
Theorem getLedColors_stalls
    (angleAverageSpan : R) (angleAveragePoints0 : Z)
    (rAverageSpan : R) (rAveragePoints0 : Z) (g : Globals)
    (increment radius : R) (fuel : nat) :
  let self :=
    setImage (__init__ angleAverageSpan angleAveragePoints0
                       rAverageSpan rAveragePoints0) (img g) in
  (1 <= get_width (img g))%Z ->
  (1 <= get_height (img g))%Z ->
  color_ok (backgroundFrameColor g) ->
  (increment <= 0)%R ->
  getLedColors fuel self g increment radius = None.
Proof.
  intros self Hw Hh Hbg Hinc.
  apply (getLedColors_never_returns self g increment radius
           (fun a => sampleColor_spec self (get_rect (img g)) g a radius)).
  - intros a. apply getLedColor_on_global; assumption.
  - exact Hinc.
Qed.

Lemma getLedColors_stalls_witness :
  getLedColors 1000 (setImage (__init__ 1 3 10 3) red_image)
               (run_globals red_image) 0 15
  = None.
Proof.
  apply (getLedColors_stalls 1 3 10 3 (run_globals red_image) 0 15 1000).
  - simpl. lia.
  - simpl. lia.
  - exact color_ok_WHITE.
  - lra.
Defined.

(** ** Negative point counts *)

Lemma getLedColorArea_no_points (self : ImageToLed) (a r : R) :
  (angleAveragePoints self <= 0)%Z \/ (rAveragePoints self <= 0)%Z ->
  getLedColorArea self a r
  = Ok (map (fun _ : Z => []) (range (angleAveragePoints self))).
Proof.
  intros Hneg. unfold getLedColorArea.
  rewrite <- mapM_Ok. apply mapM_ext_in. intros t Ht.
  destruct Hneg as [Ha|Hr].
  - rewrite (range_empty _ Ha) in Ht. destruct Ht.
  - rewrite (range_empty _ Hr). reflexivity.
Qed.

Lemma foldM_empty_rows {S A B : Type} (f : S -> A -> result S)
    (l : list B) (s : S) :
  foldM (fun st rr => foldM f rr st) (map (fun _ : B => []) l) s = Ok s.
Proof. induction l as [|x xs IH]; simpl; [reflexivity|exact IH]. Qed.

(** X6: a negative point count is kept as it is (made odd, never made
    positive); the footprint then has no point, and [getLedColor] returns
    black without raising, whether or not [setImage] has been called and
    whatever the image is. *)
Theorem negative_count_samples_black
    (angleAverageSpan : R) (angleAveragePoints0 : Z)
    (rAverageSpan : R) (rAveragePoints0 : Z) (later : list call)
    (g : Globals) (queryAngle radius : R) :
  let self :=
    after_calls (__init__ angleAverageSpan angleAveragePoints0
                          rAverageSpan rAveragePoints0) later in
  (angleAveragePoints0 < 0)%Z \/ (rAveragePoints0 < 0)%Z ->
  (exists grid : list (list (R * R)),
     getLedColorArea self queryAngle radius = Ok grid /\ concat grid = [])
  /\ getLedColor self g queryAngle radius = Ok (0%R, 0%R, 0%R).
Proof.
  intros self Hneg.
  destruct (after_calls_config
              (__init__ angleAverageSpan angleAveragePoints0
                        rAverageSpan rAveragePoints0) later)
    as (_ & _ & Ea & Er & En).
  fold self in Ea, Er, En.
  destruct (init_points_positive angleAverageSpan angleAveragePoints0
              rAverageSpan rAveragePoints0) as (_ & _ & Na & Nr).
  destruct (init_points_odd angleAverageSpan angleAveragePoints0
              rAverageSpan rAveragePoints0) as [Oa Or].
  assert (Hnone : (angleAveragePoints self <= 0)%Z
                  \/ (rAveragePoints self <= 0)%Z).
  { rewrite Ea, Er. destruct Hneg as [H|H]; [left; apply Na|right; apply Nr];
      exact H. }
  assert (Hnz : numberOfAveragedPixels self <> 0%Z).
  { rewrite En.
    change (numberOfAveragedPixels
              (__init__ angleAverageSpan angleAveragePoints0
                        rAverageSpan rAveragePoints0))
      with (angleAveragePoints
              (__init__ angleAverageSpan angleAveragePoints0
                        rAverageSpan rAveragePoints0)
            * rAveragePoints
                (__init__ angleAverageSpan angleAveragePoints0
                          rAverageSpan rAveragePoints0))%Z.
    apply odd_nonzero in Oa. apply odd_nonzero in Or.
    intros E. apply Z.mul_eq_0 in E. destruct E; contradiction. }
  pose proof (getLedColorArea_no_points self queryAngle radius Hnone) as Harea.
  split.
  - eexists. split; [exact Harea|].
    clear Harea.
    induction (range (angleAveragePoints self)) as [|t ts IH];
      [reflexivity|exact IH].
  - unfold getLedColor. rewrite Harea. cbn [bind].
    rewrite foldM_empty_rows. cbn [bind]. unfold truediv.
    destruct (Z.eqb_spec (numberOfAveragedPixels self) 0) as [E|_];
      [contradiction|].
    cbn [bind initial_locals redValue greenValue blueValue].
    unfold Rdiv. rewrite Rmult_0_l. reflexivity.
Qed.

Lemma negative_count_samples_black_witness :
  (exists grid : list (list (R * R)),
     getLedColorArea (after_calls (__init__ 1 (-3) 10 3) []) 0 15 = Ok grid
     /\ concat grid = [])
  /\ getLedColor (after_calls (__init__ 1 (-3) 10 3) [])
                 (run_globals red_image) 0 15
     = Ok (0%R, 0%R, 0%R).
Proof.
  apply (negative_count_samples_black 1 (-3) 10 3 []
           (run_globals red_image) 0 15).
  left. lia.
Defined.

(** * The presenter *)

(** ** Indexing *)

Lemma py_index_at {A : Type} (l : list A) (i : Z) (x : A) :
  (0 <= i)%Z -> nth_error l (Z.to_nat i) = Some x -> py_index l i = Ok x.
Proof.
  intros Hi Hx. unfold py_index.
  assert (Hlt : (Z.to_nat i < length l)%nat)
    by (apply nth_error_Some; rewrite Hx; discriminate).
  destruct (Z.ltb_spec i 0) as [L|_]; [lia|].
  replace ((0 <=? i) && (i <? Z.of_nat (length l)))%Z with true.
  - rewrite Hx. reflexivity.
  - symmetry. apply andb_true_iff. split; [apply Z.leb_le|apply Z.ltb_lt]; lia.
Qed.

Lemma py_index_from_end {A : Type} (l : list A) (i : Z) (x : A) :
  (i < 0)%Z -> (0 <= i + Z.of_nat (length l))%Z ->
  nth_error l (Z.to_nat (i + Z.of_nat (length l))) = Some x ->
  py_index l i = Ok x.
Proof.
  intros Hneg Hi Hx. unfold py_index.
  destruct (Z.ltb_spec i 0) as [_|L]; [|lia].
  replace ((0 <=? i + Z.of_nat (length l))
           && (i + Z.of_nat (length l) <? Z.of_nat (length l)))%Z with true.
  - rewrite Hx. reflexivity.
  - symmetry. apply andb_true_iff. split; [apply Z.leb_le|apply Z.ltb_lt]; lia.
Qed.

Lemma py_index_outside {A : Type} (l : list A) (i : Z) :
  (Z.of_nat (length l) <= i)%Z \/ (i < - Z.of_nat (length l))%Z ->
  py_index l i = Raise IndexError.
Proof.
  intros Hout. unfold py_index.
  destruct (Z.ltb_spec i 0) as [L|L].
  - replace ((0 <=? i + Z.of_nat (length l))
             && (i + Z.of_nat (length l) <? Z.of_nat (length l)))%Z
      with false; [reflexivity|].
    symmetry. apply andb_false_iff. left. apply Z.leb_gt. lia.
  - replace ((0 <=? i) && (i <? Z.of_nat (length l)))%Z
      with false; [reflexivity|].
    symmetry. apply andb_false_iff. right. apply Z.ltb_ge. lia.
Qed.

Lemma truediv_float_one (x : R) : truediv_float x 1 = Ok x.
Proof.
  unfold truediv_float. destruct (Req_dec_T 1 0) as [E|_]; [lra|].
  f_equal. field.
Qed.

(** ** The colour table *)

Lemma table_row_length (sampler : ImageToLed) (g : Globals) (r : Z) :
  length (table_row sampler g r) = 360%nat.
Proof. unfold table_row. rewrite length_map, length_seq. reflexivity. Qed.

Lemma table_row_nth (sampler : ImageToLed) (g : Globals) (r i : Z) :
  (0 <= i < 360)%Z ->
  nth_error (table_row sampler g r) (Z.to_nat i)
  = Some (sampleColor_spec sampler (get_rect (img g)) g (IZR i) (IZR r)).
Proof.
  intros Hi. unfold table_row.
  rewrite nth_error_map, nth_error_seq.
  destruct (Nat.ltb_spec (Z.to_nat i) 360) as [_|Hge]; [|lia].
  simpl. f_equal. f_equal.
  rewrite INR_IZR_INZ, Z2Nat.id by lia. ring.
Qed.

(** One sweep of the main program, given enough fuel. *)
Lemma main_sweep (fuel : nat) (aspan : R) (ap : Z) (rspan : R) (rp : Z)
    (g : Globals) (r : Z) :
  (1 <= get_width (img g))%Z ->
  (1 <= get_height (img g))%Z ->
  color_ok (backgroundFrameColor g) ->
  (360 < fuel)%nat ->
  getLedColors fuel (setImage (__init__ aspan ap rspan rp) (img g)) g
               (IZR 1) (IZR r)
  = Some (Ok (table_row (setImage (__init__ aspan ap rspan rp) (img g)) g r)).
Proof.
  intros Hw Hh Hbg Hfuel. unfold getLedColors.
  assert (E360 : INR 360 = 360%R) by (rewrite INR_IZR_INZ; reflexivity).
  pose (color := fun x : R =>
                   sampleColor_spec
                     (setImage (__init__ aspan ap rspan rp) (img g))
                     (get_rect (img g)) g x (IZR r)).
  assert (Hcolor : forall x,
             getLedColor (setImage (__init__ aspan ap rspan rp) (img g)) g
                         x (IZR r) = Ok (color x)).
  { intros x. apply getLedColor_on_global; assumption. }
  assert (Hbelow : forall k, (k < 360)%nat -> (INR k * IZR 1 < 360)%R).
  { intros k Hk. apply lt_INR in Hk. rewrite E360 in Hk. lra. }
  assert (Hreach : (360 <= INR 360 * IZR 1)%R) by (rewrite E360; lra).
  rewrite (getLedColors_loop_runs _ g (IZR 1) (IZR r) color 360%nat
             Hcolor Hbelow Hreach 360%nat 0%nat fuel 0%R [])
    by (try lia; simpl; ring).
  reflexivity.
Qed.

Lemma build_ledColors_table (fuel : nat) (aspan : R) (ap : Z) (rspan : R)
    (rp : Z) (g : Globals) (a : Args) (distance : Z) (indices : list Z) :
  (1 <= get_width (img g))%Z ->
  (1 <= get_height (img g))%Z ->
  color_ok (backgroundFrameColor g) ->
  (360 < fuel)%nat ->
  build_ledColors fuel (setImage (__init__ aspan ap rspan rp) (img g)) g a
                  distance 1 indices
  = Some (Ok (table_of (setImage (__init__ aspan ap rspan rp) (img g)) g a
                       distance indices)).
Proof.
  intros Hw Hh Hbg Hfuel.
  induction indices as [|ledIdx rest IH]; [reflexivity|].
  cbn [build_ledColors].
  rewrite (main_sweep fuel aspan ap rspan rp g _ Hw Hh Hbg Hfuel).
  rewrite IH. reflexivity.
Qed.

(** What [setup] returns, attribute by attribute. *)
Lemma setup_returns (fuel : nat) (a : Args) (scaled : Surface) :
  (1 <= get_width scaled)%Z ->
  (1 <= get_height scaled)%Z ->
  (360 < fuel)%nat ->
  let g := {| img := scaled; backgroundFrameColor := WHITE |} in
  let sampler :=
    setImage (__init__ (IZR (angleavgspan a)) (angleavgpoints a)
                       (IZR (radialavgspan a)) (radialavgpoints a)) scaled in
  let distance := (2 * ledradius a + ledseparation a)%Z in
  let size := backgroundFrameWidth a in
  exists p : Program,
    setup fuel a scaled
    = Some (Ok (p, {| angle := 0; raster := false; running := true;
                      drawAverageArea := true |}))
    /\ args p = a
    /\ globals p = g
    /\ imgToLed p = sampler
    /\ main_distanceBetweenLeds p = distance
    /\ main_angleIncrement p = 1%Z
    /\ ledLineColor p = BLACK
    /\ ledDraw p
       = setColorMap
           (LedDraw__init__ (set_mode (size, size)) (IZR 1) (IZR distance)
                            (numberleds a) (IZR (ledradius a))
                            (IZR (ledcenteroffset a)) 3 BLACK)
           (table_of sampler g a distance (range (numberleds a))).
Proof.
  intros Hw Hh Hfuel g sampler distance size.
  pose proof (build_ledColors_table fuel (IZR (angleavgspan a))
                (angleavgpoints a) (IZR (radialavgspan a))
                (radialavgpoints a) g a distance
                (range (numberleds a)) Hw Hh color_ok_WHITE Hfuel) as Hb.
  subst g sampler distance size. cbn [img] in Hb.
  unfold setup. cbv zeta. rewrite Hb.
  eexists. split; [reflexivity|]. repeat split.
Qed.

Lemma table_lookup (sampler : ImageToLed) (g : Globals) (a : Args)
    (distance n ledIdx theta : Z) :
  (0 <= ledIdx < n)%Z ->
  (-360 <= theta < 360)%Z ->
  (row <- py_index (table_of sampler g a distance (range n)) ledIdx ;;
   py_index row theta)
  = Ok (sampleColor_spec sampler (get_rect (img g)) g
          (IZR (theta mod 360))
          (IZR (ledcenteroffset a + ledIdx * distance))).
Proof.
  intros Hidx Htheta.
  rewrite (py_index_at _ ledIdx
             (table_row sampler g (ledcenteroffset a + ledIdx * distance)%Z)).
  2: lia.
  2:{ unfold table_of. rewrite nth_error_map, (range_nth_error _ _ Hidx).
      reflexivity. }
  cbn [bind].
  destruct (Z.ltb_spec theta 0) as [Hneg|Hpos].
  - apply py_index_from_end; rewrite ?table_row_length; try lia.
    replace (theta mod 360)%Z with (theta + 360)%Z.
    + apply table_row_nth. lia.
    + apply Z.mod_unique with (q := (-1)%Z); lia.
  - apply py_index_at; [lia|].
    rewrite Z.mod_small by lia. apply table_row_nth. lia.
Qed.


(** X7: when every sweep has fuel for its 360 iterations, the set-up of
    the main program returns with the loop variables at angle 0, raster
    off, running; its colour table has one row per LED and 360 entries per
    row, and the entry for LED [ledIdx] and angle index [theta] is the colour
    that [getLedColor] gives for angle [theta] at the radius
    [ledcenteroffset + ledIdx * (2 * ledradius + ledseparation)]. *)
Theorem setup_colour_table (fuel : nat) (a : Args) (scaled : Surface) :
  (1 <= get_width scaled)%Z ->
  (1 <= get_height scaled)%Z ->
  (360 < fuel)%nat ->
  exists (p : Program) (v : LoopVars) (table : list (list (R * R * R))),
    setup fuel a scaled = Some (Ok (p, v))
    /\ angle v = 0%Z /\ raster v = false /\ running v = true
    /\ ledColors (ledDraw p) = Some table
    /\ length table = Z.to_nat (numberleds a)
    /\ (forall row, In row table -> length row = 360%nat)
    /\ (forall ledIdx theta : Z,
          (0 <= ledIdx < numberleds a)%Z ->
          (0 <= theta < 360)%Z ->
          ledColors_at (ledDraw p) ledIdx theta
          = getLedColor (imgToLed p) (globals p) (IZR theta)
              (IZR (ledcenteroffset a
                    + ledIdx * (2 * ledradius a + ledseparation a)))).
Proof.
  intros Hw Hh Hfuel.
  destruct (setup_returns fuel a scaled Hw Hh Hfuel)
    as (p & Hsetup & Ea & Eg & Es & Ed & Ei & El & Edraw).
  exists p. eexists. eexists.
  split; [exact Hsetup|].
  split; [reflexivity|]. split; [reflexivity|]. split; [reflexivity|].
  rewrite Edraw, Es, Eg. cbn [ledColors setColorMap].
  split; [reflexivity|].
  split; [unfold table_of; rewrite length_map; apply range_length|].
  split.
  - intros row Hrow. unfold table_of in Hrow. apply in_map_iff in Hrow.
    destruct Hrow as (i & <- & _). apply table_row_length.
  - intros ledIdx theta Hidx Htheta.
    unfold ledColors_at, get_ledColors. cbn [ledColors setColorMap bind].
    rewrite (table_lookup _ _ a _ _ ledIdx theta Hidx) by lia.
    rewrite Z.mod_small by lia. symmetry.
    apply (getLedColor_on_global _ _ _ _
             {| img := scaled; backgroundFrameColor := WHITE |});
      [exact Hw|exact Hh|exact color_ok_WHITE].
Qed.

Lemma setup_colour_table_witness :
  exists (p : Program) (v : LoopVars) (table : list (list (R * R * R))),
    setup 361 default_args red_frame = Some (Ok (p, v))
    /\ angle v = 0%Z /\ raster v = false /\ running v = true
    /\ ledColors (ledDraw p) = Some table
    /\ length table = Z.to_nat (numberleds default_args)
    /\ (forall row, In row table -> length row = 360%nat)
    /\ (forall ledIdx theta : Z,
          (0 <= ledIdx < numberleds default_args)%Z ->
          (0 <= theta < 360)%Z ->
          ledColors_at (ledDraw p) ledIdx theta
          = getLedColor (imgToLed p) (globals p) (IZR theta)
              (IZR (ledcenteroffset default_args
                    + ledIdx * (2 * ledradius default_args
                                + ledseparation default_args)))).
Proof.
  apply (setup_colour_table 361 default_args red_frame).
  - simpl. lia.
  - simpl. lia.
  - lia.
Defined.

(** ** Drawing one LED *)

Lemma drawLed_from_table (scr : Surface) (sampler : ImageToLed) (g : Globals)
    (a : Args) (dist n : Z) (lr shaftR : R) (shaftC line : Z * Z * Z)
    (ledIdx theta : Z) (border : bool) :
  (0 <= ledIdx < n)%Z ->
  (-360 <= theta < 360)%Z ->
  drawLed (setColorMap
             (LedDraw__init__ scr (IZR 1) (IZR dist) n lr
                              (IZR (ledcenteroffset a)) shaftR shaftC)
             (table_of sampler g a dist (range n)))
          line ledIdx (IZR theta) border
  = (led_circles
       (sampleColor_spec sampler (get_rect (img g)) g (IZR (theta mod 360))
                         (IZR (ledcenteroffset a + ledIdx * dist)))
       (truncate (projection (get_rect scr) (IZR theta)
                             (IZR (ledcenteroffset a + ledIdx * dist))))
       lr line border,
     Ok tt).
Proof.
  intros Hidx Htheta. unfold drawLed.
  cbn [surf angleIncrement distanceBetweenLeds ledRadius ledCenterOffset
       setColorMap LedDraw__init__].
  rewrite truediv_float_one. cbn [lift dbind]. rewrite py_int_IZR.
  unfold ledColors_at, get_ledColors.
  cbn [ledColors setColorMap LedDraw__init__ bind].
  rewrite (table_lookup sampler g a dist n ledIdx theta Hidx Htheta).
  unfold led_circles, truncate, projection, getAngleRads.
  rewrite plus_IZR, mult_IZR.
  destruct border; reflexivity.
Qed.



(** ** The events of a frame *)

Lemma handle_events_closed (increment : Z) (events : list event) :
  forall v : LoopVars,
    fold_left (handle_event increment) events v
    = {| angle := (angle v + increment * net_left events)%Z;
         raster := xorb (raster v) (Nat.odd (ups events));
         running := running v && negb (has_quit events);
         drawAverageArea := drawAverageArea v |}.
Proof.
  induction events as [|e events IH]; intros [a r run d].
  - simpl. f_equal; [lia| |].
    + destruct r; reflexivity.
    + destruct run; reflexivity.
  - cbn [fold_left]. rewrite IH.
    assert (Hodd : Nat.odd (S (ups events)) = negb (Nat.odd (ups events)))
      by (rewrite Nat.odd_succ, <- Nat.negb_odd; reflexivity).
    destruct e as [|[| | |]|];
      cbn [handle_event net_left ups has_quit
           angle raster running drawAverageArea];
      rewrite ?Hodd; f_equal; try lia;
      try (destruct run; reflexivity).
    destruct r, (Nat.odd (ups events)); reflexivity.
Qed.

Lemma summaries_permutation (events events' : list event) :
  Permutation events events' ->
  net_left events = net_left events'
  /\ ups events = ups events'
  /\ has_quit events = has_quit events'.
Proof.
  intros Hperm. induction Hperm as [|e l l' _ (IH1 & IH2 & IH3)
                                    |e1 e2 l
                                    |l1 l2 l3 _ (A1 & A2 & A3) _ (B1 & B2 & B3)].
  - repeat split.
  - destruct e as [|[| | |]|]; simpl; rewrite ?IH1, ?IH2, ?IH3;
      repeat split.
  - destruct e1 as [|[| | |]|], e2 as [|[| | |]|]; simpl;
      repeat split; lia.
  - repeat split; congruence.
Qed.

(** X9: the events of one frame act on the loop variables through three
    summaries only: the angle moves by the increment times the net number
    of left presses, the raster flag flips when the number of up presses is
    odd, and [running] is cleared when a [QUIT] is present; so the order of
    the events within a frame does not matter. *)
Theorem frame_events_summary (p : Program) (v : LoopVars)
    (events : list event) :
  update p v events
  = wrap_angle
      {| angle := (angle v + main_angleIncrement p * net_left events)%Z;
         raster := xorb (raster v) (Nat.odd (ups events));
         running := running v && negb (has_quit events);
         drawAverageArea := drawAverageArea v |}
  /\ (forall events' : list event,
        Permutation events events' ->
        update p v events' = update p v events).
Proof.
  split.
  - unfold update. rewrite handle_events_closed. reflexivity.
  - intros events' Hperm. unfold update.
    rewrite !handle_events_closed.
    destruct (summaries_permutation events events' Hperm) as (E1 & E2 & E3).
    rewrite E1, E2, E3. reflexivity.
Qed.

(** X10: with the increment 1 of line 236 and the angle in 0..359 before a
    frame, the angle after the frame is the displaced angle modulo 360 when
    the net displacement overshoots the range by at most one step, and is
    the displaced angle itself, outside 0..359, when it overshoots by more:
    lines 265-268 wrap the two values 360 and -1 only. *)
Theorem frame_angle_wrap (v : LoopVars) (events : list event) :
  let displaced := (angle v + net_left events)%Z in
  let after := angle (wrap_angle (fold_left (handle_event 1) events v)) in
  (0 <= angle v <= 359)%Z ->
  ((-1 <= displaced <= 360)%Z ->
   after = (displaced mod 360)%Z /\ (0 <= after <= 359)%Z)
  /\ ((displaced < -1)%Z \/ (360 < displaced)%Z -> after = displaced).
Proof.
  intros displaced after Hv. subst after.
  rewrite handle_events_closed. unfold wrap_angle. cbn [angle].
  replace (angle v + 1 * net_left events)%Z with displaced
    by (unfold displaced; lia).
  destruct (Z.eqb_spec displaced 360) as [E360|N360].
  - cbn [angle]. simpl. split.
    + intros _. rewrite E360. split; [reflexivity|lia].
    + intros [H|H]; lia.
  - cbn [angle]. destruct (Z.eqb_spec displaced (-1)) as [Em1|Nm1].
    + cbn [angle]. split.
      * intros _. rewrite Em1. split; [reflexivity|lia].
      * intros [H|H]; lia.
    + cbn [angle]. split.
      * intros Hin. rewrite Z.mod_small by lia. split; [reflexivity|lia].
      * intros _. reflexivity.
Qed.

Lemma frame_angle_wrap_witness :
  ((-1 <= 359 + net_left [KEYDOWN K_LEFT; KEYDOWN K_LEFT] <= 360)%Z ->
   angle (wrap_angle
            (fold_left (handle_event 1) [KEYDOWN K_LEFT; KEYDOWN K_LEFT]
               {| angle := 359; raster := false; running := true;
                  drawAverageArea := true |}))
   = ((359 + net_left [KEYDOWN K_LEFT; KEYDOWN K_LEFT]) mod 360)%Z
   /\ (0 <= angle (wrap_angle
                     (fold_left (handle_event 1)
                        [KEYDOWN K_LEFT; KEYDOWN K_LEFT]
                        {| angle := 359; raster := false; running := true;
                           drawAverageArea := true |})) <= 359)%Z)
  /\ ((359 + net_left [KEYDOWN K_LEFT; KEYDOWN K_LEFT] < -1)%Z
      \/ (360 < 359 + net_left [KEYDOWN K_LEFT; KEYDOWN K_LEFT])%Z ->
      angle (wrap_angle
               (fold_left (handle_event 1) [KEYDOWN K_LEFT; KEYDOWN K_LEFT]
                  {| angle := 359; raster := false; running := true;
                     drawAverageArea := true |}))
      = (359 + net_left [KEYDOWN K_LEFT; KEYDOWN K_LEFT])%Z).
Proof.
  apply (frame_angle_wrap
           {| angle := 359; raster := false; running := true;
              drawAverageArea := true |}
           [KEYDOWN K_LEFT; KEYDOWN K_LEFT]).
  simpl. lia.
Defined.

(** ** Loops that draw *)

Lemma range_in (n x : Z) : In x (range n) -> (0 <= x < n)%Z.
Proof.
  unfold range. intros Hin. apply in_map_iff in Hin.
  destruct Hin as (k & <- & Hk). apply in_seq in Hk. lia.
Qed.

Lemma for_each_ok {A : Type} (l : list A) (body : A -> drawing unit)
    (calls : A -> list command) :
  (forall x, In x l -> body x = (calls x, Ok tt)) ->
  for_each l body = (concat (map calls l), Ok tt).
Proof.
  induction l as [|x xs IH]; intros Hbody; [reflexivity|].
  cbn [for_each map concat].
  rewrite (Hbody x) by (left; reflexivity). cbn [dbind].
  rewrite IH by (intros y Hy; apply Hbody; right; exact Hy).
  reflexivity.
Qed.

Lemma concat_map_length {A B : Type} (f : A -> list B) (l : list A)
    (k : nat) :
  (forall x, In x l -> length (f x) = k) ->
  length (concat (map f l)) = (length l * k)%nat.
Proof.
  induction l as [|x xs IH]; intros Hlen; [reflexivity|].
  cbn [map concat length]. rewrite length_app.
  rewrite (Hlen x) by (left; reflexivity).
  rewrite IH by (intros y Hy; apply Hlen; right; exact Hy).
  lia.
Qed.

Lemma led_circles_length (c : R * R * R) (center : Z * Z) (radius : R)
    (line : Z * Z * Z) (border : bool) :
  length (led_circles c center radius line border)
  = (if border then 3 else 2)%nat.
Proof. destruct border; reflexivity. Qed.

(** ** Drawing the arm *)

Lemma draw_from_table (scr : Surface) (sampler : ImageToLed) (g : Globals)
    (a : Args) (dist n : Z) (lr shaftR : R) (shaftC line : Z * Z * Z)
    (theta : Z) (border : bool) :
  let drawer :=
    setColorMap
      (LedDraw__init__ scr (IZR 1) (IZR dist) n lr
                       (IZR (ledcenteroffset a)) shaftR shaftC)
      (table_of sampler g a dist (range n)) in
  (-360 <= theta < 360)%Z ->
  draw drawer line (IZR theta) border
  = (shaft_circle drawer
       :: concat
            (map (fun ledIdx =>
                    led_circles
                      (sampleColor_spec sampler (get_rect (img g)) g
                         (IZR (theta mod 360))
                         (IZR (ledcenteroffset a + ledIdx * dist)))
                      (truncate
                         (projection (get_rect scr) (IZR theta)
                            (IZR (ledcenteroffset a + ledIdx * dist))))
                      lr line border)
                 (range n)),
     Ok tt).
Proof.
  intros drawer Htheta. unfold draw. cbn [emit dbind].
  rewrite (for_each_ok (range (numberOfLeds drawer)) _
             (fun ledIdx =>
                led_circles
                  (sampleColor_spec sampler (get_rect (img g)) g
                     (IZR (theta mod 360))
                     (IZR (ledcenteroffset a + ledIdx * dist)))
                  (truncate
                     (projection (get_rect scr) (IZR theta)
                        (IZR (ledcenteroffset a + ledIdx * dist))))
                  lr line border)).
  - reflexivity.
  - intros ledIdx Hin. apply range_in in Hin.
    apply drawLed_from_table; assumption.
Qed.

(** With an angle outside the table the first LED already fails. *)
Lemma draw_outside_table (scr : Surface) (sampler : ImageToLed) (g : Globals)
    (a : Args) (dist n : Z) (lr shaftR : R) (shaftC line : Z * Z * Z)
    (theta : Z) (border : bool) :
  let drawer :=
    setColorMap
      (LedDraw__init__ scr (IZR 1) (IZR dist) n lr
                       (IZR (ledcenteroffset a)) shaftR shaftC)
      (table_of sampler g a dist (range n)) in
  (1 <= n)%Z ->
  (360 <= theta)%Z \/ (theta < -360)%Z ->
  draw drawer line (IZR theta) border
  = ([shaft_circle drawer], Raise IndexError).
Proof.
  intros drawer Hn Hout. subst drawer. unfold draw, shaft_circle.
  cbn [emit dbind numberOfLeds setColorMap LedDraw__init__].
  destruct (range_first n Hn) as (rest & ->).
  cbn [for_each]. unfold drawLed.
  cbn [surf angleIncrement distanceBetweenLeds ledRadius ledCenterOffset
       setColorMap LedDraw__init__].
  rewrite truediv_float_one. cbn [lift dbind]. rewrite py_int_IZR.
  unfold ledColors_at, get_ledColors.
  cbn [ledColors setColorMap LedDraw__init__ bind table_of map].
  rewrite (py_index_at _ 0
             (table_row sampler g (ledcenteroffset a + 0 * dist)%Z))
    by (try lia; reflexivity).
  cbn [bind].
  rewrite py_index_outside by (rewrite table_row_length; lia).
  reflexivity.
Qed.

(** ** Frames *)

Lemma arm_length (drawer : LedDraw) (n : Z) (border : bool)
    (circles : Z -> list command) :
  (forall ledIdx, length (circles ledIdx) = (if border then 3 else 2)%nat) ->
  length (shaft_circle drawer :: concat (map circles (range n)))
  = (1 + Z.to_nat n * (if border then 3 else 2))%nat.
Proof.
  intros Hlen. cbn [length].
  rewrite (concat_map_length circles (range n) (if border then 3 else 2)%nat)
    by (intros x _; apply Hlen).
  rewrite range_length. reflexivity.
Qed.



(** ** The outline of a footprint *)

Lemma py_index_map_range_first {A : Type} (f : Z -> A) (m : Z) :
  (1 <= m)%Z -> py_index (map f (range m)) 0 = Ok (f 0%Z).
Proof.
  intros Hm. apply py_index_at; [lia|].
  rewrite nth_error_map, (range_nth_error m 0) by lia. reflexivity.
Qed.

Lemma py_index_map_range_last {A : Type} (f : Z -> A) (m : Z) :
  (1 <= m)%Z -> py_index (map f (range m)) (-1) = Ok (f (m - 1)%Z).
Proof.
  intros Hm.
  assert (Hlen : Z.of_nat (length (map f (range m))) = m)
    by (rewrite length_map, range_length; lia).
  apply py_index_from_end; rewrite ?Hlen; try lia.
  replace (-1 + m)%Z with (m - 1)%Z by lia.
  rewrite nth_error_map, (range_nth_error m (m - 1)) by lia. reflexivity.
Qed.

Lemma outline_cells (p : Program) (b : Rect) (theta ledIdx : Z) :
  imgBound (imgToLed p) = Some b ->
  (1 <= angleAveragePoints (imgToLed p))%Z ->
  (1 <= rAveragePoints (imgToLed p))%Z ->
  let radius :=
    IZR (ledcenteroffset (args p) + ledIdx * main_distanceBetweenLeds p) in
  let n := angleAveragePoints (imgToLed p) in
  let m := rAveragePoints (imgToLed p) in
  let at_ := footprint_cell (imgToLed p) b (IZR theta) radius in
  outline p theta ledIdx
  = Ok [at_ 0%Z 0%Z; at_ 0%Z (m - 1)%Z; at_ (n - 1)%Z (m - 1)%Z;
        at_ (n - 1)%Z 0%Z; at_ 0%Z 0%Z].
Proof.
  intros Hb Hn Hm radius n m at_. unfold outline.
  fold radius.
  rewrite (getLedColorArea_footprint _ b _ _ Hb). cbn [bind].
  unfold footprint. fold n. fold m.
  rewrite (py_index_map_range_first _ n Hn). cbn [bind].
  rewrite (py_index_map_range_first _ m Hm). cbn [bind].
  rewrite (py_index_map_range_last _ m Hm). cbn [bind].
  rewrite (py_index_map_range_last _ n Hn). cbn [bind].
  rewrite (py_index_map_range_first _ m Hm). cbn [bind].
  rewrite (py_index_map_range_last _ m Hm). cbn [bind].
  reflexivity.
Qed.

(** X12: with non-negative point counts on the command line, the outline
    that the loop computes for an LED (lines 285-294) never raises and is
    the closed path through the four corner cells of that LED's footprint:
    cells (0, 0), (0, m-1), (n-1, m-1), (n-1, 0) and (0, 0) again. *)
Theorem outline_is_corner_path (fuel : nat) (a : Args) (scaled : Surface)
    (theta ledIdx : Z) :
  (1 <= get_width scaled)%Z ->
  (1 <= get_height scaled)%Z ->
  (360 < fuel)%nat ->
  (0 <= angleavgpoints a)%Z ->
  (0 <= radialavgpoints a)%Z ->
  exists (p : Program) (v0 : LoopVars) (grid : list (list (R * R)))
         (path : list (R * R)),
    setup fuel a scaled = Some (Ok (p, v0))
    /\ getLedColorArea (imgToLed p) (IZR theta)
         (IZR (ledcenteroffset a
               + ledIdx * (2 * ledradius a + ledseparation a)))
       = Ok grid
    /\ corners grid (angleAveragePoints (imgToLed p))
               (rAveragePoints (imgToLed p)) = Some path
    /\ outline p theta ledIdx = Ok path.
Proof.
  intros Hw Hh Hfuel Hap Hrp.
  destruct (setup_returns fuel a scaled Hw Hh Hfuel)
    as (p & Hsetup & Ea & Eg & Es & Ed & Ei & El & Edraw).
  destruct (init_points_positive (IZR (angleavgspan a)) (angleavgpoints a)
              (IZR (radialavgspan a)) (radialavgpoints a))
    as (Pa & Pr & _ & _).
  specialize (Pa Hap). specialize (Pr Hrp).
  assert (Hb : imgBound (imgToLed p) = Some (get_rect scaled))
    by (rewrite Es; reflexivity).
  assert (Hn : (1 <= angleAveragePoints (imgToLed p))%Z)
    by (rewrite Es; exact Pa).
  assert (Hm : (1 <= rAveragePoints (imgToLed p))%Z)
    by (rewrite Es; exact Pr).
  exists p. eexists. eexists. eexists.
  split; [exact Hsetup|].
  split; [apply (getLedColorArea_footprint _ _ _ _ Hb)|].
  split.
  - unfold corners. rewrite !footprint_cell_at by lia. reflexivity.
  - rewrite (outline_cells p (get_rect scaled) theta ledIdx Hb Hn Hm).
    rewrite Ea, Ed. reflexivity.
Qed.

Lemma outline_is_corner_path_witness :
  exists (p : Program) (v0 : LoopVars) (grid : list (list (R * R)))
         (path : list (R * R)),
    setup 361 default_args red_frame = Some (Ok (p, v0))
    /\ getLedColorArea (imgToLed p) (IZR 30)
         (IZR (ledcenteroffset default_args
               + 2 * (2 * ledradius default_args
                      + ledseparation default_args)))
       = Ok grid
    /\ corners grid (angleAveragePoints (imgToLed p))
               (rAveragePoints (imgToLed p)) = Some path
    /\ outline p 30 2 = Ok path.
Proof.
  apply (outline_is_corner_path 361 default_args red_frame 30 2);
    simpl; lia.
Defined.

(** ** The frame that shows the arm *)






(** With a point count that is zero or negative on either axis the grid of
    [getLedColorArea] has no first row, or a first row with no first cell,
    and the outline extraction of lines 287-288 raises. *)
Lemma outline_no_points (p : Program) (theta ledIdx : Z) :
  (angleAveragePoints (imgToLed p) <= 0)%Z
  \/ (rAveragePoints (imgToLed p) <= 0)%Z ->
  outline p theta ledIdx = Raise IndexError.
Proof.
  intros Hneg. unfold outline.
  rewrite (getLedColorArea_no_points _ _ _ Hneg). cbn [bind].
  destruct (Z_le_gt_dec (angleAveragePoints (imgToLed p)) 0) as [Ha|Ha].
  - rewrite (range_empty _ Ha). reflexivity.
  - destruct (range_first (angleAveragePoints (imgToLed p))) as (rest & ->);
      [lia|].
    reflexivity.
Qed.

(** X14: a negative point count on the command line is accepted by the
    set-up, which completes, but with at least one LED the first frame
    already raises [IndexError]: it draws the backdrop, the shaft and the
    three circles of every LED, and then fails at line 287 or 288 while
    taking the outline of LED 0, before any polygon is drawn and before the
    display is flipped. *)
Theorem negative_count_first_frame_raises (fuel : nat) (a : Args)
    (scaled : Surface) :
  (1 <= get_width scaled)%Z ->
  (1 <= get_height scaled)%Z ->
  (360 < fuel)%nat ->
  (angleavgpoints a < 0)%Z \/ (radialavgpoints a < 0)%Z ->
  (1 <= numberleds a)%Z ->
  exists (p : Program) (v0 : LoopVars) (arm : list command),
    setup fuel a scaled = Some (Ok (p, v0))
    /\ frame p v0 [] = (v0, (backdrop p ++ arm, Raise IndexError))
    /\ length arm = (1 + Z.to_nat (numberleds a) * 3)%nat.
Proof.
  intros Hw Hh Hfuel Hneg Hleds.
  destruct (setup_returns fuel a scaled Hw Hh Hfuel)
    as (p & Hsetup & Ea & Eg & Es & Ed & Ei & El & Edraw).
  destruct (init_points_positive (IZR (angleavgspan a)) (angleavgpoints a)
              (IZR (radialavgspan a)) (radialavgpoints a))
    as (_ & _ & Na & Nr).
  assert (Hpoints : (angleAveragePoints (imgToLed p) <= 0)%Z
                    \/ (rAveragePoints (imgToLed p) <= 0)%Z).
  { rewrite Es. destruct Hneg as [H|H]; [left; exact (Na H)|right; exact (Nr H)]. }
  pose (sampler :=
          setImage (__init__ (IZR (angleavgspan a)) (angleavgpoints a)
                             (IZR (radialavgspan a)) (radialavgpoints a))
                   scaled).
  pose (g := {| img := scaled; backgroundFrameColor := WHITE |}).
  exists p,
         {| angle := 0; raster := false; running := true;
            drawAverageArea := true |},
         (shaft_circle
            (setColorMap
               (LedDraw__init__
                  (set_mode (backgroundFrameWidth a, backgroundFrameWidth a))
                  (IZR 1) (IZR (2 * ledradius a + ledseparation a))
                  (numberleds a) (IZR (ledradius a))
                  (IZR (ledcenteroffset a)) 3 BLACK)
               (table_of sampler g a (2 * ledradius a + ledseparation a)
                         (range (numberleds a))))
          :: concat
               (map (fun ledIdx =>
                       led_circles
                         (sampleColor_spec sampler (get_rect scaled) g
                            (IZR (0 mod 360))
                            (IZR (ledcenteroffset a
                                  + ledIdx * (2 * ledradius a
                                              + ledseparation a))))
                         (truncate
                            (projection
                               (get_rect
                                  (set_mode (backgroundFrameWidth a,
                                             backgroundFrameWidth a)))
                               (IZR 0)
                               (IZR (ledcenteroffset a
                                     + ledIdx * (2 * ledradius a
                                                 + ledseparation a)))))
                         (IZR (ledradius a)) BLACK true)
                    (range (numberleds a)))).
  split; [exact Hsetup|]. split.
  - unfold frame, update. cbn [fold_left].
    change (wrap_angle {| angle := 0; raster := false; running := true;
                          drawAverageArea := true |})
      with {| angle := 0; raster := false; running := true;
              drawAverageArea := true |}.
    f_equal. unfold render. cbn [raster drawAverageArea angle].
    rewrite Edraw, El.
    rewrite (draw_from_table _ sampler g a _ _ _ _ _ _ 0 true) by lia.
    rewrite Ea.
    assert (Hpaths : mapM (outline p 0) (range (numberleds a))
                     = Raise IndexError).
    { destruct (range_first (numberleds a) Hleds) as (rest & ->).
      cbn [mapM]. rewrite (outline_no_points p 0 0 Hpoints). reflexivity. }
    rewrite Hpaths. cbn [lift dbind emit]. unfold backdrop.
    rewrite ?app_nil_r. reflexivity.
  - apply (arm_length _ (numberleds a) true). intros i.
    apply led_circles_length.
Qed.

Lemma negative_count_first_frame_raises_witness :
  exists (p : Program) (v0 : LoopVars) (arm : list command),
    setup 361
      {| alpha := 10; backgroundFrameWidth := 600; numberleds := 15;
         ledradius := 8; ledseparation := 1; angleavgspan := 1;
         angleavgpoints := -1; radialavgspan := 10; radialavgpoints := 3;
         ledcenteroffset := 15 |}
      red_frame
    = Some (Ok (p, v0))
    /\ frame p v0 [] = (v0, (backdrop p ++ arm, Raise IndexError))
    /\ length arm = (1 + Z.to_nat 15 * 3)%nat.
Proof.
  apply (negative_count_first_frame_raises 361
           {| alpha := 10; backgroundFrameWidth := 600; numberleds := 15;
              ledradius := 8; ledseparation := 1; angleavgspan := 1;
              angleavgpoints := -1; radialavgspan := 10; radialavgpoints := 3;
              ledcenteroffset := 15 |}
           red_frame);
    simpl; lia.
Defined.

(** X15: lines 265-268 wrap the two values 360 and -1 only, and the colour
    table has 360 columns, so a frame that is not in raster mode and whose
    events carry the angle above 360 or below -360 raises [IndexError] in
    [drawLed] for LED 0: after the backdrop only the shaft is drawn, and the
    display is not flipped.  (An angle from -360 to -2 raises nothing:
    Python's negative index reads the table from its end.) *)
Theorem frame_outside_table_raises (fuel : nat) (a : Args)
    (scaled : Surface) :
  (1 <= get_width scaled)%Z ->
  (1 <= get_height scaled)%Z ->
  (360 < fuel)%nat ->
  (1 <= numberleds a)%Z ->
  exists (p : Program) (v0 : LoopVars),
    setup fuel a scaled = Some (Ok (p, v0))
    /\ (forall (v : LoopVars) (events : list event),
          raster v = false ->
          Nat.odd (ups events) = false ->
          (360 < angle v + net_left events)%Z
          \/ (angle v + net_left events < -360)%Z ->
          frame p v events
          = ({| angle := (angle v + net_left events)%Z;
                raster := false;
                running := running v && negb (has_quit events);
                drawAverageArea := drawAverageArea v |},
             (backdrop p ++ [shaft_circle (ledDraw p)], Raise IndexError))).
Proof.
  intros Hw Hh Hfuel Hleds.
  destruct (setup_returns fuel a scaled Hw Hh Hfuel)
    as (p & Hsetup & Ea & Eg & Es & Ed & Ei & El & Edraw).
  exists p. eexists. split; [exact Hsetup|].
  intros v events Hraster Heven Hout.
  unfold frame, update. rewrite Ei, handle_events_closed.
  rewrite Hraster, Heven. cbn [xorb].
  replace (angle v + 1 * net_left events)%Z
    with (angle v + net_left events)%Z by lia.
  unfold wrap_angle. cbn [angle].
  destruct (Z.eqb_spec (angle v + net_left events) 360) as [E|_]; [lia|].
  cbn [angle].
  destruct (Z.eqb_spec (angle v + net_left events) (-1)) as [E|_]; [lia|].
  f_equal. unfold render. cbn [raster angle].
  rewrite Edraw, El.
  rewrite (draw_outside_table _ _ _ a _ _ _ _ _ _
             (angle v + net_left events) true Hleds) by lia.
  reflexivity.
Qed.

Lemma frame_outside_table_raises_witness :
  exists (p : Program) (v0 : LoopVars),
    setup 361 default_args red_frame = Some (Ok (p, v0))
    /\ (forall (v : LoopVars) (events : list event),
          raster v = false ->
          Nat.odd (ups events) = false ->
          (360 < angle v + net_left events)%Z
          \/ (angle v + net_left events < -360)%Z ->
          frame p v events
          = ({| angle := (angle v + net_left events)%Z;
                raster := false;
                running := running v && negb (has_quit events);
                drawAverageArea := drawAverageArea v |},
             (backdrop p ++ [shaft_circle (ledDraw p)], Raise IndexError))).
Proof.
  apply (frame_outside_table_raises 361 default_args red_frame);
    simpl; lia.
Defined.
